(** * Krylov-subspace solvers of TIGRE: CGLS, LSQR and LSMR

    A shallow embedding of [Python/tigre/algorithms/krylov_subspace_algorithms.py].

    The three solver classes become the modules [CGLS], [LSQR] and [LSMR].
    Each holds a record with the attributes of [self], the constructor
    [__init__], and [run_main_iter] written in a small state-and-exception
    monad whose state is the solver object together with what the loop does
    to the outside: calls of the projector [Ax] and of the backprojector
    [Atb], reads of [default_timer], and printed lines.

    Floating-point arithmetic is not fixed: the solvers are written over an
    interface ([Float], [Sqrt], [NDArray]) that a model of the arithmetic
    instantiates.  Two models are given further down: rationals extended with
    the IEEE special values, and exact rationals with formal square roots. *)

From Stdlib Require Import QArith Qabs ZArith Lia String DecimalString.
From Stdlib Require Import Reals Qreals Lra.
From stdpp Require Import base list.

Set Default Proof Using "Type".

(** ** The arithmetic the solvers use *)

(** Scalars: numpy and Python floats. *)
Class Float (F : Type) : Type := {
  fzero : F;
  fone : F;
  fadd : F -> F -> F;
  fsub : F -> F -> F;
  fmul : F -> F -> F;
  fdiv : F -> F -> F;
  fneg : F -> F;
  fabs : F -> F;
  (** [fgt a b] is the test [a > b] *)
  fgt : F -> F -> bool;
  (** [np.isnan] on one number *)
  fisnan : F -> bool;
  (** rounding done by a store into a [float32] buffer *)
  f32 : F -> F
}.

(** [np.sqrt] *)
Class Sqrt (F : Type) : Type := fsqrt : F -> F.

(** Dense buffers of one space (image space or data space). *)
Class NDArray (F V : Type) : Type := {
  vadd : V -> V -> V;
  vsub : V -> V -> V;
  (** scalar times array *)
  vscale : F -> V -> V;
  (** array divided by a scalar *)
  vdiv : V -> F -> V;
  (** array minus a scalar, broadcast *)
  vsubs : V -> F -> V;
  (** [np.linalg.norm(x.ravel(), 2)], also [np.linalg.norm(x)] *)
  norm : V -> F;
  (** [np.isnan(x).any()] *)
  hasnan : V -> bool
}.

(** [x ** 2] *)
Definition sq {F} `{Float F} (x : F) : F := fmul x x.

(** An [int] used as a float, as in [sum(avgtime) / len(avgtime)]. *)
Fixpoint of_nat {F} `{Float F} (n : nat) : F :=
  match n with
  | O => fzero
  | S k => fadd (of_nat k) fone
  end.

(** [sum(l)] for a list of floats: starts from 0 and adds left to right. *)
Definition py_sum {F} `{Float F} (l : list F) : F := fold_left fadd l fzero.

(** [str(i)] for a non-negative [int]. *)
Definition str (i : nat) : string := NilZero.string_of_uint (Nat.to_uint i).

(** ** Exceptions, outputs and the solver monad *)

Inductive exn : Type :=
| ValueError (msg : string)
| ZeroDivisionError
| IndexError.

Inductive outcome (A : Type) : Type :=
| Val (a : A)
| Exc (e : exn).
Arguments Val {A} a.
Arguments Exc {A} e.

(** What a run prints or hands to the hooks of the base class. *)
Inductive event (F Img : Type) : Type :=
| EstimateTime (i : nat)
| Print (msg : string)
| PrintAvgTime (avg : F)
| ErrorMeasurement (res_prev res : Img) (i : nat).
Arguments EstimateTime {F Img} i.
Arguments Print {F Img} msg.
Arguments PrintAvgTime {F Img} avg.
Arguments ErrorMeasurement {F Img} res_prev res i.

(** The state a main loop works on: the solver object [self], the local list
    [avgtime] of [run_main_iter], and the outside world. *)
Record machine (F Img Self : Type) : Type := Machine {
  self : Self;
  avgtime : list F;
  n_Ax : nat;
  n_Atb : nat;
  n_timer : nat;
  stdout : list (event F Img)
}.
Arguments Machine {F Img Self}.
Arguments self {F Img Self}.
Arguments avgtime {F Img Self}.
Arguments n_Ax {F Img Self}.
Arguments n_Atb {F Img Self}.
Arguments n_timer {F Img Self}.
Arguments stdout {F Img Self}.

(** The object as constructed, before any loop ran. *)
Definition boot {F Img Self} (s : Self) : machine F Img Self :=
  Machine s [] 0 0 0 [].

Definition M (St A : Type) : Type := St -> outcome A * St.

Definition ret {St A} (a : A) : M St A := fun m => (Val a, m).

Definition bind {St A B} (c : M St A) (k : A -> M St B) : M St B :=
  fun m =>
    match c m with
    | (Val a, m') => k a m'
    | (Exc e, m') => (Exc e, m')
    end.

Definition raise {St A} (e : exn) : M St A := fun m => (Exc e, m).

Declare Scope py_scope.
Delimit Scope py_scope with py.
Notation "'let*' x ':=' c 'in' k" := (bind c (fun x => k))
  (at level 10, x name, c at level 100, k at level 200) : py_scope.
Notation "c ';;' k" := (bind c (fun _ => k))
  (at level 100, k at level 200) : py_scope.

(** [if b: c] *)
Definition when {St} (b : bool) (c : M St unit) : M St unit :=
  if b then c else ret tt.

(** [for i in range(...)], where the body may [return]: a body yields
    [Some v] when it executed [return v], and the loop stops there. *)
Fixpoint for_range {St R} (body : nat -> M St (option R)) (idx : list nat)
  : M St (option R) :=
  match idx with
  | [] => ret None
  | i :: rest =>
      bind (body i) (fun r =>
        match r with
        | Some v => ret (Some v)
        | None => for_range body rest
        end)
  end.

Section MachineOps.
Context {F Img Dat Self : Type}.
Local Abbreviation mach := (machine F Img Self).

Definition get_self : M mach Self := fun m => (Val (self m), m).

Definition set_self (s : Self) : M mach unit :=
  fun m => (Val tt, Machine s (avgtime m) (n_Ax m) (n_Atb m) (n_timer m) (stdout m)).

Definition get_avgtime : M mach (list F) := fun m => (Val (avgtime m), m).

Definition set_avgtime (l : list F) : M mach unit :=
  fun m => (Val tt, Machine (self m) l (n_Ax m) (n_Atb m) (n_timer m) (stdout m)).

(** One evaluation of the forward operator. *)
Definition call_Ax (Ax : Img -> Dat) (x : Img) : M mach Dat :=
  fun m => (Val (Ax x),
            Machine (self m) (avgtime m) (S (n_Ax m)) (n_Atb m) (n_timer m) (stdout m)).

(** One evaluation of the adjoint operator. *)
Definition call_Atb (Atb : Dat -> Img) (y : Dat) : M mach Img :=
  fun m => (Val (Atb y),
            Machine (self m) (avgtime m) (n_Ax m) (S (n_Atb m)) (n_timer m) (stdout m)).

(** [default_timer()]: the k-th read of the clock gives [timer k]. *)
Definition default_timer (timer : nat -> F) : M mach F :=
  fun m => (Val (timer (n_timer m)),
            Machine (self m) (avgtime m) (n_Ax m) (n_Atb m) (S (n_timer m)) (stdout m)).

Definition emit (e : event F Img) : M mach unit :=
  fun m => (Val tt,
            Machine (self m) (avgtime m) (n_Ax m) (n_Atb m) (n_timer m) (stdout m ++ [e])).
End MachineOps.

Section ListCells.
Context {F : Type} {St : Type}.

(** [a[0, i]] on a buffer of shape [(1, n)], for [0 <= i]. *)
Definition cell_get (a : list F) (i : nat) : M St F :=
  match a !! i with
  | Some x => ret x
  | None => raise IndexError
  end.

(** [a[0, i] = x]; the new buffer. *)
Definition cell_set (a : list F) (i : nat) (x : F) : M St (list F) :=
  if decide (i < length a) then ret (<[i:=x]> a) else raise IndexError.
End ListCells.

(** ** The dictionary of the object

    Line 64 of the source walks [self.__dict__], the attributes of the
    solver object in the order in which their names were first assigned.
    The dictionary is kept as the list of the names with, for each, what the
    name is bound to.  Two names can be bound to the same array: an update
    in place of one ([self.res += ...]) is then seen through the other. *)
Inductive binding : Type :=
| BProj                (** the array that [self.proj] is; never written *)
| BRes                 (** the array that [self.res] is; lines 61 and 82
                           update it in place *)
| BR                   (** the array that [self.__r__] is *)
| BP                   (** the array that [self.__p__] is *)
| BL2l                 (** the array that [self.l2l] is *)
| BArray (nan : bool)  (** another array, which no solver writes, with
                           whether it holds a NaN *)
| BOther.              (** not an [ndarray]: a number, a string, [None],
                           a list, another object *)

(** [self.k = v] on the dictionary: a name that is there keeps its place
    and is bound anew, a new name goes to the end. *)
Fixpoint assign (k : string) (b : binding) (d : list (string * binding))
  : list (string * binding) :=
  match d with
  | [] => [(k, b)]
  | (k', b') :: rest =>
      if String.eqb k k' then (k, b) :: rest else (k', b') :: assign k b rest
  end.

(** Modelled from the spec: the constructor of the base class
    [IterativeReconAlg] (module [iterative_recon_alg]), which the three solvers
    call first.  Spec, sections 2 and 6: it supplies the initial solution
    estimate, the measured projections, the iteration count, the verbosity
    flag, the optional quality-measurement configuration and the damping
    scalar.  [Quameasopts] records whether that option is not [None].
    [init_dict] is [self.__dict__] as the base constructor leaves it: every
    name it has stored on the object, in insertion order, with what the name
    is bound to.  The spec has the initial estimate "mutated in place": a
    name under which the base class keeps the array it was handed as initial
    guess is bound to the solution when that array is used as the solution
    without a copy. *)
Record IterativeReconAlg (F Img Dat : Type) : Type := {
  init_proj : Dat;
  init_res : Img;
  init_niter : nat;
  init_verbose : bool;
  init_Quameasopts : bool;
  init_lmbda : F;
  init_dict : list (string * binding)
}.
Arguments init_proj {F Img Dat}.
Arguments init_res {F Img Dat}.
Arguments init_niter {F Img Dat}.
Arguments init_verbose {F Img Dat}.
Arguments init_Quameasopts {F Img Dat}.
Arguments init_lmbda {F Img Dat}.
Arguments init_dict {F Img Dat}.

Local Open Scope py_scope.

(** ** CGLS *)

Module CGLS.
Section Solver.
Context {F Img Dat : Type}.
Context {FF : Float F} {NI : NDArray F Img} {ND : NDArray F Dat}.
Variable Ax : Img -> Dat.
Variable Atb : Dat -> Img.
Variable timer : nat -> F.

(** The attributes of a CGLS object.  [l2l] is created by
    [run_main_iter]; it is the empty buffer before.  [base_dict] is the
    dictionary the base constructor left; the names the solver itself
    assigns are added to it by [scan_dict]. *)
Record state : Type := State {
  proj : Dat;
  res : Img;
  niter : nat;
  verbose : bool;
  Quameasopts : bool;
  base_dict : list (string * binding);
  re_init_at_iteration : nat;
  __r__ : Dat;
  __p__ : Img;
  __gamma__ : F;
  l2l : list F
}.

Local Abbreviation mach := (machine F Img state).

Definition set_res (x : Img) (s : state) : state :=
  State (proj s) x (niter s) (verbose s) (Quameasopts s) (base_dict s)
        (re_init_at_iteration s) (__r__ s) (__p__ s) (__gamma__ s) (l2l s).
Definition set_re_init_at_iteration (i : nat) (s : state) : state :=
  State (proj s) (res s) (niter s) (verbose s) (Quameasopts s) (base_dict s)
        i (__r__ s) (__p__ s) (__gamma__ s) (l2l s).
Definition set_r (y : Dat) (s : state) : state :=
  State (proj s) (res s) (niter s) (verbose s) (Quameasopts s) (base_dict s)
        (re_init_at_iteration s) y (__p__ s) (__gamma__ s) (l2l s).
Definition set_p (x : Img) (s : state) : state :=
  State (proj s) (res s) (niter s) (verbose s) (Quameasopts s) (base_dict s)
        (re_init_at_iteration s) (__r__ s) x (__gamma__ s) (l2l s).
Definition set_gamma (g : F) (s : state) : state :=
  State (proj s) (res s) (niter s) (verbose s) (Quameasopts s) (base_dict s)
        (re_init_at_iteration s) (__r__ s) (__p__ s) g (l2l s).
Definition set_l2l (h : list F) (s : state) : state :=
  State (proj s) (res s) (niter s) (verbose s) (Quameasopts s) (base_dict s)
        (re_init_at_iteration s) (__r__ s) (__p__ s) (__gamma__ s) h.

(** An assignment to an attribute of [self]. *)
Definition upd (f : state -> state) : M mach unit :=
  let* s := get_self in set_self (f s).

(** [CGLS.__init__], lines 29-39. *)
Definition __init__ (b : IterativeReconAlg F Img Dat) : state :=
  let r := vsub (init_proj b) (Ax (init_res b)) in
  let p := Atb r in
  let p_norm := norm p in
  State (init_proj b) (init_res b) (init_niter b) (init_verbose b)
        (init_Quameasopts b) (init_dict b)
        0 r p (fmul p_norm p_norm) [].

(** [CGLS.reinitialise_cgls], lines 41-45. *)
Definition reinitialise_cgls : M mach unit :=
  let* s := get_self in
  let* fwd := call_Ax Ax (res s) in
  upd (set_r (vsub (proj s) fwd)) ;;
  let* s := get_self in
  let* bp := call_Atb Atb (__r__ s) in
  upd (set_p bp) ;;
  let* s := get_self in
  let p_norm := norm (__p__ s) in
  upd (set_gamma (fmul p_norm p_norm)).

(** [self.__dict__] when line 64 scans it, from the dictionary the base
    constructor left.  The solver has by then assigned, in this order,
    [re_init_at_iteration] (line 33, before the base constructor runs),
    [__r__], [__p__] and [__gamma__] (lines 36-39), [l2l] (line 49) and
    [res] (line 61: [self.res += ...] stores the attribute again).  The
    later assignments of an iteration go to names that are there. *)
Definition scan_dict (d : list (string * binding)) : list (string * binding) :=
  assign "res" BRes
    (assign "l2l" BL2l
       (assign "__gamma__" BOther
          (assign "__p__" BP
             (assign "__r__" BR
                (assign "re_init_at_iteration" BOther d))))).

(** [np.isnan(value).any()] for the array a name is bound to. *)
Definition nan_in (s : state) (b : binding) : bool :=
  match b with
  | BProj => hasnan (proj s)
  | BRes => hasnan (res s)
  | BR => hasnan (__r__ s)
  | BP => hasnan (__p__ s)
  | BL2l => existsb fisnan (l2l s)
  | BArray nan => nan
  | BOther => false
  end.

(** One entry of the dictionary under the test of lines 65-68: nothing
    when [isinstance(value, np.ndarray)] fails. *)
Definition scanned (s : state) (e : string * binding) : option (string * bool) :=
  match snd e with
  | BOther => None
  | b => Some (fst e, nan_in s b)
  end.

(** The array-valued entries of [self.__dict__], in insertion order, each
    with [np.isnan(...).any()]. *)
Definition ndarrays (s : state) : list (string * bool) :=
  omap (scanned s) (scan_dict (base_dict s)).

(** Lines 64-69: the scan of the attributes for NaN. *)
Definition nan_scan (i : nat) : M mach unit :=
  let* s := get_self in
  match List.find snd (ndarrays s) with
  | Some (item, _) =>
      raise (ValueError ("nan found for " ++ item ++ " at iteraton " ++ str i)%string)
  | None => ret tt
  end.

(** Lines 75-84: the divergence check.  Yields [Some res] when the
    function returns there. *)
Definition divergence_check (i : nat) (alpha : F) : M mach (option Img) :=
  let* s := get_self in
  let* cur := cell_get (l2l s) i in
  let* grew :=
    (if 0 <? i
     then let* prev := cell_get (l2l s) (i - 1) in ret (fgt cur prev)
     else ret false) in
  if grew : bool then
    when (verbose s)
      (emit (Print ("re-initilization of CGLS called at iteration:" ++ str i)%string)) ;;
    if re_init_at_iteration s + 1 =? i then
      when (verbose s)
        (emit (Print "Algorithm exited with two consecutive reinitializations."%string)) ;;
      ret (Some (res s))
    else
      upd (set_res (vsub (res s) (vscale alpha (__p__ s)))) ;;
      reinitialise_cgls ;;
      upd (set_re_init_at_iteration i) ;;
      ret None
  else ret None.

(** Lines 86-96: the rest of an iteration. *)
Definition direction_update (i : nat) (alpha : F) (q : Dat)
    (res_prev : option Img) : M mach unit :=
  let* s := get_self in
  upd (set_r (vsub (__r__ s) (vscale alpha q))) ;;
  let* s := get_self in
  let* s_ := call_Atb Atb (__r__ s) in
  let s_norm := norm s_ in
  let gamma1 := fmul s_norm s_norm in
  let beta := fdiv gamma1 (__gamma__ s) in
  upd (set_gamma gamma1) ;;
  upd (set_p (vadd s_ (vscale beta (__p__ s)))) ;;
  match res_prev with
  | Some rp =>
      let* s := get_self in emit (ErrorMeasurement rp (res s) i)
  | None => ret tt
  end.

(** Lines 52-63: the step along the search direction.  Yields the locals
    [alpha], [q] and [res_prev] that the rest of the body reads
    ([res_prev] is bound only when [Quameasopts] is set). *)
Definition take_step (i : nat) : M mach (F * Dat * option Img) :=
  let* s := get_self in
  when (verbose s) (emit (EstimateTime i)) ;;
  let res_prev := if Quameasopts s then Some (res s) else None in
  let* avgtic := default_timer timer in
  let* q := call_Ax Ax (__p__ s) in
  let q_norm := norm q in
  let alpha := fdiv (__gamma__ s) (fmul q_norm q_norm) in
  upd (set_res (vadd (res s) (vscale alpha (__p__ s)))) ;;
  let* avgtoc := default_timer timer in
  let* ts := get_avgtime in
  set_avgtime (ts ++ [fabs (fsub avgtic avgtoc)]) ;;
  ret (alpha, q, res_prev).

(** Lines 71-74: the residual norm of the new [res], stored in the
    [float32] history. *)
Definition record_residual (i : nat) : M mach unit :=
  let* s := get_self in
  let* fwd := call_Ax Ax (res s) in
  let aux := vsub (proj s) fwd in
  let* h := cell_set (l2l s) i (f32 (norm aux)) in
  upd (set_l2l h).

(** Lines 52-96: one pass through the body of the loop. *)
Definition iteration (i : nat) : M mach (option Img) :=
  let* loc := take_step i in
  let '(alpha, q, res_prev) := loc in
  nan_scan i ;;
  record_residual i ;;
  let* returned := divergence_check i alpha in
  match returned with
  | Some x => ret (Some x)
  | None => direction_update i alpha q res_prev ;; ret None
  end.

(** Lines 98-103: the summary printed in verbose mode.  [sum(avgtime)] is
    divided by the integer [len(avgtime)]. *)
Definition print_average : M mach unit :=
  let* ts := get_avgtime in
  if length ts =? 0 then raise ZeroDivisionError
  else emit (PrintAvgTime (fdiv (py_sum ts) (of_nat (length ts)))).

(** Lines 49-50: the history buffer [np.zeros((1, niter))] and the empty
    list [avgtime]. *)
Definition allocate : M mach unit :=
  let* s := get_self in
  upd (set_l2l (replicate (niter s) fzero)) ;;
  set_avgtime [].

(** [CGLS.run_main_iter], lines 48-103.  The result is [Some res] when the
    function leaves through [return self.res] and [None] when it runs off
    its end. *)
Definition run_main_iter : M mach (option Img) :=
  allocate ;;
  let* s := get_self in
  let* returned := for_range iteration (seq 0 (niter s)) in
  match returned with
  | Some x => ret (Some x)
  | None =>
      let* s := get_self in
      when (verbose s) print_average ;;
      ret None
  end.
End Solver.
End CGLS.

(** ** LSQR *)

Module LSQR.
Section Solver.
Context {F Img Dat : Type}.
Context {FF : Float F} {SF : Sqrt F} {NI : NDArray F Img} {ND : NDArray F Dat}.
Variable Ax : Img -> Dat.
Variable Atb : Dat -> Img.
Variable timer : nat -> F.

Record state : Type := State {
  proj : Dat;
  res : Img;
  niter : nat;
  verbose : bool;
  Quameasopts : bool;
  re_init_at_iteration : nat;
  __u__ : Dat;
  __beta__ : F;
  __phibar__ : F;
  __v__ : Img;
  __alpha__ : F;
  __rhobar__ : F;
  __w__ : Img;
  l2l : list F
}.

Local Abbreviation mach := (machine F Img state).

Definition set_l2l (h : list F) (s : state) : state :=
  State (proj s) (res s) (niter s) (verbose s) (Quameasopts s)
        (re_init_at_iteration s) (__u__ s) (__beta__ s) (__phibar__ s)
        (__v__ s) (__alpha__ s) (__rhobar__ s) (__w__ s) h.

(** [LSQR.__init__], lines 115-137. *)
Definition __init__ (b : IterativeReconAlg F Img Dat) : state :=
  let u := vsub (init_proj b) (Ax (init_res b)) in
  let normr := norm u in
  let u := vdiv u normr in
  let v := Atb u in
  let alpha := norm v in
  let v := vdiv v alpha in
  State (init_proj b) (init_res b) (init_niter b) (init_verbose b)
        (init_Quameasopts b) 0
        u normr normr v alpha alpha v [].

(** Lines 149-157, steps (3)(a) and (3)(b): continue the
    bidiagonalization.  Yields the new [u], [beta], [v] and [alpha]. *)
Definition bidiagonalize : M mach (Dat * F * Img * F) :=
  let* s := get_self in
  let* fwd := call_Ax Ax (__v__ s) in
  let u := vsub fwd (vscale (__alpha__ s) (__u__ s)) in
  let beta := norm u in
  let u := vdiv u beta in
  let* bp := call_Atb Atb u in
  let v := vsub bp (vscale beta (__v__ s)) in
  let alpha := norm v in
  let v := vdiv v alpha in
  ret (u, beta, v, alpha).

(** Lines 159-170, steps (4) and (5): the plane rotation and the update
    of [res] and [w], from the object [s] as it was when the iteration
    began and the output of step (3). *)
Definition rotation (s : state) (u : Dat) (beta : F) (v : Img) (alpha : F)
  : state :=
  (* (4)(a-g) *)
  let rho := fsqrt (fadd (sq (__rhobar__ s)) (sq beta)) in
  let c := fdiv (__rhobar__ s) rho in
  let s_ := fdiv beta rho in
  let theta := fmul s_ alpha in
  let rhobar := fmul (fneg c) alpha in
  let phi := fmul c (__phibar__ s) in
  let phibar := fmul s_ (__phibar__ s) in
  (* (5) Update x, w *)
  let res1 := vadd (res s) (vscale (fdiv phi rho) (__w__ s)) in
  let w := vsub v (vscale (fdiv theta rho) (__w__ s)) in
  State (proj s) res1 (niter s) (verbose s) (Quameasopts s)
        (re_init_at_iteration s) u beta phibar v alpha rhobar w
        (l2l s).

(** Lines 143-176: one pass through the body of the loop.  The body has no
    [return]; it yields [None] to the loop. *)
Definition iteration (i : nat) : M mach (option Img) :=
  let* s := get_self in
  when (verbose s) (emit (EstimateTime i)) ;;
  let res_prev := if Quameasopts s then Some (res s) else None in
  let* avgtic := default_timer timer in
  let* uv := bidiagonalize in
  let '(u, beta, v, alpha) := uv in
  set_self (rotation s u beta v alpha) ;;
  let* avgtoc := default_timer timer in
  let* ts := get_avgtime in
  set_avgtime (ts ++ [fabs (fsub avgtic avgtoc)]) ;;
  match res_prev with
  | Some rp => let* s := get_self in emit (ErrorMeasurement rp (res s) i)
  | None => ret tt
  end ;;
  ret None.

(** The history buffer [np.zeros((1, niter))] and the empty list
    [avgtime]. *)
Definition allocate : M mach unit :=
  let* s := get_self in
  set_self (set_l2l (replicate (niter s) fzero) s) ;;
  set_avgtime [].

(** [LSQR.run_main_iter], lines 139-176. *)
Definition run_main_iter : M mach (option Img) :=
  allocate ;;
  let* s := get_self in
  for_range iteration (seq 0 (niter s)).
End Solver.
End LSQR.

(** ** LSMR *)

Module LSMR.
Section Solver.
Context {F Img Dat : Type}.
Context {FF : Float F} {SF : Sqrt F} {NI : NDArray F Img} {ND : NDArray F Dat}.
Variable Ax : Img -> Dat.
Variable Atb : Dat -> Img.
Variable timer : nat -> F.

(** [__hbar__] starts as the number 0 and is an array from the first
    iteration on. *)
Record state : Type := State {
  proj : Dat;
  res : Img;
  niter : nat;
  verbose : bool;
  Quameasopts : bool;
  lmbda : F;
  re_init_at_iteration : nat;
  __u__ : Dat;
  __beta__ : F;
  __v__ : Img;
  __alpha__ : F;
  __alphabar__ : F;
  __zetabar__ : F;
  __rho__ : F;
  __rhobar__ : F;
  __cbar__ : F;
  __sbar__ : F;
  __h__ : Img;
  __hbar__ : F + Img;
  __betadd__ : F;
  __betad__ : F;
  __rhod__ : F;
  __tautilda__ : F;
  __thetatilda__ : F;
  __zeta__ : F;
  __d__ : F;
  l2l : list F
}.

Local Abbreviation mach := (machine F Img state).

Definition set_l2l (h : list F) (s : state) : state :=
  State (proj s) (res s) (niter s) (verbose s) (Quameasopts s) (lmbda s)
        (re_init_at_iteration s) (__u__ s) (__beta__ s) (__v__ s)
        (__alpha__ s) (__alphabar__ s) (__zetabar__ s) (__rho__ s)
        (__rhobar__ s) (__cbar__ s) (__sbar__ s) (__h__ s) (__hbar__ s)
        (__betadd__ s) (__betad__ s) (__rhod__ s) (__tautilda__ s)
        (__thetatilda__ s) (__zeta__ s) (__d__ s) h.

(** [LSMR.__init__], lines 189-223. *)
Definition __init__ (b : IterativeReconAlg F Img Dat) : state :=
  let u := vsub (init_proj b) (Ax (init_res b)) in
  let normr := norm u in
  let beta := normr in
  let u := vdiv u normr in
  let v := Atb u in
  let alpha := norm v in
  let v := vdiv v alpha in
  State (init_proj b) (init_res b) (init_niter b) (init_verbose b)
        (init_Quameasopts b) (init_lmbda b) 0
        u beta v alpha
        (* alphabar, zetabar, rho, rhobar, cbar, sbar *)
        alpha (fmul alpha beta) fone fone fone fzero
        (* h, hbar *)
        v (inl fzero)
        (* betadd, betad, rhod, tautilda, thetatilda, zeta, d *)
        beta fzero fone fzero fzero fzero fzero
        [].

(** [h - k * hbar], line 268, for [hbar] a number or an array. *)
Definition hbar_update (h : Img) (k : F) (hbar : F + Img) : Img :=
  match hbar with
  | inl z => vsubs h (fmul k z)
  | inr hb => vsub h (vscale k hb)
  end.

(** Lines 236-242, step (3): continue the bidiagonalization.  Yields the
    new [u], [beta], [v] and [alpha]. *)
Definition bidiagonalize : M mach (Dat * F * Img * F) :=
  let* s := get_self in
  let* fwd := call_Ax Ax (__v__ s) in
  let u := vsub fwd (vscale (__alpha__ s) (__u__ s)) in
  let beta := norm u in
  let u := vdiv u beta in
  let* bp := call_Atb Atb u in
  let v := vsub bp (vscale beta (__v__ s)) in
  let alpha := norm v in
  let v := vdiv v alpha in
  ret (u, beta, v, alpha).

(** Lines 244-299, steps (4) to (11): the rotations, the update of the
    solution and the residual-norm estimate, from the object [s] as it
    was when the iteration began and the output of step (3).  Yields the
    attributes after the iteration ([l2l] apart) and the value stored in
    the history. *)
Definition rotations (s : state) (u : Dat) (beta : F) (v : Img) (alpha : F)
  : state * F :=
  (* (4) Construct and apply rotation \hat{P}_k *)
  let alphahat := fsqrt (fadd (sq (__alphabar__ s)) (sq (lmbda s))) in
  let chat := fdiv (__alphabar__ s) alphahat in
  let shat := fdiv (lmbda s) alphahat in
  (* (5) Construct and apply rotation P_k *)
  let rhopre := __rho__ s in
  let rho := fsqrt (fadd (sq alphahat) (sq beta)) in
  let c := fdiv alphahat rho in
  let s_ := fdiv beta rho in
  let theta := fmul s_ alpha in
  let alphabar := fmul c alpha in
  (* (6) Construct and apply rotation \bar{P}_k *)
  let thetabar := fmul (__sbar__ s) rho in
  let rhobarpre := __rhobar__ s in
  let rhobar := fsqrt (fadd (sq (fmul (__cbar__ s) rho)) (sq theta)) in
  let cbar := fdiv (fmul (__cbar__ s) rho) rhobar in
  let sbar := fdiv theta rhobar in
  let zetapre := __zeta__ s in
  let zeta := fmul cbar (__zetabar__ s) in
  let zetabar := fmul (fneg sbar) (__zetabar__ s) in
  (* (7) Update \bar{h}, x, h *)
  let hbar :=
    hbar_update (__h__ s)
      (fdiv (fmul thetabar rho) (fmul rhopre rhobarpre)) (__hbar__ s) in
  let res1 := vadd (res s) (vscale (fdiv zeta (fmul rho rhobar)) hbar) in
  let h := vsub v (vscale (fdiv theta rho) (__h__ s)) in
  (* (8) Apply rotation \hat{P}_k, P_k *)
  let betaacute := fmul chat (__betadd__ s) in
  let betacheck := fmul (fneg shat) (__betadd__ s) in
  (* Computing ||r_k||; [betadd] is a local of the loop body *)
  let betahat := fmul c betaacute in
  let betadd := fmul (fneg s_) betaacute in
  (* (9) *)
  let rhotilda := fsqrt (fadd (sq (__rhod__ s)) (sq thetabar)) in
  let ctilda := fdiv (__rhod__ s) rhotilda in
  let stilda := fdiv thetabar rhotilda in
  let thetatildapre := __thetatilda__ s in
  let thetatilda := fmul stilda rhobar in
  let rhod := fmul ctilda rhobar in
  let betad := fadd (fmul (fneg stilda) (__betad__ s)) (fmul ctilda betahat) in
  (* (10) Update \tilde{t}_k by forward substitution *)
  let tautilda :=
    fdiv (fsub zetapre (fmul thetatildapre (__tautilda__ s))) rhotilda in
  let taud := fdiv (fsub zeta (fmul thetatilda tautilda)) rhod in
  (* (11) Compute ||r_k|| *)
  let d := fadd (__d__ s) (sq betacheck) in
  let gamma_var := fadd (fadd d (sq (fsub betad taud))) (sq betadd) in
  (State (proj s) res1 (niter s) (verbose s) (Quameasopts s)
         (lmbda s) (re_init_at_iteration s)
         u beta v alpha
         alphabar zetabar rho rhobar cbar sbar
         h (inr hbar)
         (__betadd__ s) betad rhod tautilda thetatilda zeta d
         (l2l s),
   f32 (fsqrt gamma_var)).

(** Lines 229-305: one pass through the body of the loop.  The body has no
    [return]; it yields [None] to the loop. *)
Definition iteration (i : nat) : M mach (option Img) :=
  let* s := get_self in
  when (verbose s) (emit (EstimateTime i)) ;;
  let res_prev := if Quameasopts s then Some (res s) else None in
  let* avgtic := default_timer timer in
  let* uv := bidiagonalize in
  let '(u, beta, v, alpha) := uv in
  let new := rotations s u beta v alpha in
  set_self (fst new) ;;
  let* hist := cell_set (l2l s) i (snd new) in
  let* s := get_self in
  set_self (set_l2l hist s) ;;
  let* avgtoc := default_timer timer in
  let* ts := get_avgtime in
  set_avgtime (ts ++ [fabs (fsub avgtic avgtoc)]) ;;
  match res_prev with
  | Some rp => let* s := get_self in emit (ErrorMeasurement rp (res s) i)
  | None => ret tt
  end ;;
  ret None.

(** The history buffer [np.zeros((1, niter))] and the empty list
    [avgtime]. *)
Definition allocate : M mach unit :=
  let* s := get_self in
  set_self (set_l2l (replicate (niter s) fzero) s) ;;
  set_avgtime [].

(** [LSMR.run_main_iter], lines 225-305. *)
Definition run_main_iter : M mach (option Img) :=
  allocate ;;
  let* s := get_self in
  for_range iteration (seq 0 (niter s)).
End Solver.
End LSMR.

(** Step (3) of LSQR and of LSMR as a function of what it reads: the
    vectors [u0], [v0] and the scalar [alpha0] of the object, and the two
    operators.  It yields the new [u], [beta], [v] and [alpha]. *)
Definition bidiag_step {F Img Dat : Type} {FF : Float F}
    {NI : NDArray F Img} {ND : NDArray F Dat}
    (Ax : Img -> Dat) (Atb : Dat -> Img)
    (u0 : Dat) (alpha0 : F) (v0 : Img) : Dat * F * Img * F :=
  let u := vsub (Ax v0) (vscale alpha0 u0) in
  let beta := norm u in
  let u := vdiv u beta in
  let v := vsub (Atb u) (vscale beta v0) in
  let alpha := norm v in
  let v := vdiv v alpha in
  (u, beta, v, alpha).

(** ** A model of the arithmetic: rationals with the IEEE special values

    Finite numbers are rationals and finite arithmetic is exact (no rounding,
    no overflow, one zero, and a store into the [float32] history changes
    nothing); the special values follow IEEE 754, which numpy uses: a
    non-zero number divided by zero is an infinity, [0/0], [inf - inf] and
    [0 * inf] are NaN, NaN propagates, and every comparison with NaN is
    false.  The model is for the runs given further down and for
    properties that rest on the special values and on exact zeros; it says
    nothing of what rounding does to a run. *)

Module XQ.
Inductive xq : Type :=
| Fin (q : Q)
| PInf
| NInf
| NaN.

(** The sign of a rational: [Lt] negative, [Eq] zero, [Gt] positive. *)
Definition sign (q : Q) : comparison := (Qnum q ?= 0)%Z.

Definition xneg (a : xq) : xq :=
  match a with
  | Fin q => Fin (Qred (- q))
  | PInf => NInf
  | NInf => PInf
  | NaN => NaN
  end.

Definition xadd (a b : xq) : xq :=
  match a, b with
  | NaN, _ | _, NaN => NaN
  | PInf, NInf | NInf, PInf => NaN
  | PInf, _ | _, PInf => PInf
  | NInf, _ | _, NInf => NInf
  | Fin x, Fin y => Fin (Qred (x + y))
  end.

Definition xsub (a b : xq) : xq := xadd a (xneg b).

(** An infinity of the sign of [a] times a finite [q]. *)
Definition inf_times (a : xq) (q : Q) : xq :=
  match sign q with
  | Eq => NaN
  | Gt => a
  | Lt => xneg a
  end.

Definition xmul (a b : xq) : xq :=
  match a, b with
  | NaN, _ | _, NaN => NaN
  | Fin x, Fin y => Fin (Qred (x * y))
  | Fin x, i => inf_times i x
  | i, Fin y => inf_times i y
  | PInf, PInf | NInf, NInf => PInf
  | PInf, NInf | NInf, PInf => NInf
  end.

Definition xdiv (a b : xq) : xq :=
  match a, b with
  | NaN, _ | _, NaN => NaN
  | Fin x, Fin y =>
      match sign y with
      | Eq => match sign x with Eq => NaN | Gt => PInf | Lt => NInf end
      | _ => Fin (Qred (x / y))
      end
  | Fin _, _ => Fin 0
  | i, Fin y => match sign y with Lt => xneg i | _ => i end
  | _, _ => NaN
  end.

Definition xabs (a : xq) : xq :=
  match a with
  | Fin q => Fin (Qred (Qabs q))
  | PInf | NInf => PInf
  | NaN => NaN
  end.

Definition xgt (a b : xq) : bool :=
  match a, b with
  | NaN, _ | _, NaN => false
  | Fin x, Fin y => match (y ?= x)%Q with Lt => true | _ => false end
  | PInf, PInf => false
  | PInf, _ => true
  | _, PInf => false
  | NInf, _ => false
  | _, NInf => true
  end.

Definition xisnan (a : xq) : bool :=
  match a with NaN => true | _ => false end.

Definition xisinf (a : xq) : bool :=
  match a with PInf | NInf => true | _ => false end.

#[export] Instance xq_Float : Float xq := {
  fzero := Fin 0;
  fone := Fin 1;
  fadd := xadd;
  fsub := xsub;
  fmul := xmul;
  fdiv := xdiv;
  fneg := xneg;
  fabs := xabs;
  fgt := xgt;
  fisnan := xisnan;
  f32 := fun a => a
}.

(** Buffers with a single cell: the 2-norm is the absolute value. *)
#[export] Instance xq_cell : NDArray xq xq := {
  vadd := xadd;
  vsub := xsub;
  vscale := xmul;
  vdiv := xdiv;
  vsubs := xsub;
  norm := xabs;
  hasnan := xisnan
}.
End XQ.

(** ** A model of exact arithmetic: rationals with formal square roots

    [Rat q] is the rational [q]; [Surd q] is the irrational square root of
    the positive rational [q] (kept reduced); [Undef] is the result of any
    operation whose value the representation cannot hold (a division by
    zero, the root of a negative number, a sum with an irrational term).
    Every defined result is the exact real value of the operation. *)

Module Exact.
Inductive exact : Type :=
| Rat (q : Q)
| Surd (q : Q)
| Undef.

Definition is_square (z : Z) : bool := (Z.sqrt z * Z.sqrt z =? z)%Z.

(** The square root of a rational: a reduced fraction is the square of a
    rational exactly when its numerator and denominator are squares. *)
Definition root (q : Q) : exact :=
  let r := Qred q in
  match Qnum r with
  | Zneg _ => Undef
  | n =>
      let d := Zpos (Qden r) in
      if is_square n && is_square d
      then Rat (Z.sqrt n # Z.to_pos (Z.sqrt d))
      else Surd r
  end.

Definition Qltb (x y : Q) : bool :=
  match (x ?= y)%Q with Lt => true | _ => false end.

Definition eadd (a b : exact) : exact :=
  match a, b with
  | Rat x, Rat y => Rat (Qred (x + y))
  | _, _ => Undef
  end.

Definition eneg (a : exact) : exact :=
  match a with
  | Rat x => Rat (Qred (- x))
  | _ => Undef
  end.

Definition esub (a b : exact) : exact :=
  match a, b with
  | Rat x, Rat y => Rat (Qred (x - y))
  | _, _ => Undef
  end.

Definition emul (a b : exact) : exact :=
  match a, b with
  | Rat x, Rat y => Rat (Qred (x * y))
  | Surd x, Surd y =>
      if Qltb 0 x && Qltb 0 y then root (x * y) else Undef
  | _, _ => Undef
  end.

Definition ediv (a b : exact) : exact :=
  match a, b with
  | Rat x, Rat y =>
      match Qnum y with
      | Z0 => Undef
      | _ => Rat (Qred (x / y))
      end
  | _, _ => Undef
  end.

Definition eabs (a : exact) : exact :=
  match a with
  | Rat x => Rat (Qred (Qabs x))
  | Surd x => Surd x
  | Undef => Undef
  end.

Definition egt (a b : exact) : bool :=
  match a, b with
  | Rat x, Rat y => Qltb y x
  | Surd x, Surd y => Qltb y x
  | Rat x, Surd y => Qltb 0 x && Qltb y (x * x)
  | Surd x, Rat y => Qltb y 0 || Qltb (y * y) x
  | _, _ => false
  end.

Definition esqrt (a : exact) : exact :=
  match a with
  | Rat x => root x
  | _ => Undef
  end.

Definition eisundef (a : exact) : bool :=
  match a with Undef => true | _ => false end.

#[export] Instance exact_Float : Float exact := {
  fzero := Rat 0;
  fone := Rat 1;
  fadd := eadd;
  fsub := esub;
  fmul := emul;
  fdiv := ediv;
  fneg := eneg;
  fabs := eabs;
  fgt := egt;
  fisnan := eisundef;
  f32 := fun a => a
}.

#[export] Instance exact_Sqrt : Sqrt exact := esqrt.

(** The real number a value stands for. *)
Definition real (a : exact) : option R :=
  match a with
  | Rat q => Some (Q2R q)
  | Surd q => Some (sqrt (Q2R q))
  | Undef => None
  end.
End Exact.

(** ** Arrays as lists, operators as matrices

    Buffers of [n] cells are lists of length [n]; the shapes of the operands
    of an elementwise operation are taken to agree. *)

Section ListArrays.
Context {F : Type} {FF : Float F} {SF : Sqrt F}.

Definition dot (x y : list F) : F :=
  fold_left fadd (zip_with fmul x y) fzero.

#[export] Instance list_NDArray : NDArray F (list F) := {
  vadd := zip_with fadd;
  vsub := zip_with fsub;
  vscale := fun k x => map (fmul k) x;
  vdiv := fun x k => map (fun a => fdiv a k) x;
  vsubs := fun x k => map (fun a => fsub a k) x;
  norm := fun x => fsqrt (dot x x);
  hasnan := existsb fisnan
}.

(** The matrix [A], given by its rows, applied to [x]. *)
Definition matvec (A : list (list F)) (x : list F) : list F :=
  map (fun row => dot row x) A.

(** The transpose of [A], a matrix with [n] columns, applied to [y]. *)
Definition rmatvec (n : nat) (A : list (list F)) (y : list F) : list F :=
  map (fun j => dot (map (fun row => nth j row fzero) A) y) (seq 0 n).
End ListArrays.

(** ** Concrete runs *)

(** CGLS on one-cell buffers over [XQ]: the projector is the identity and
    the backprojector scales by [k], so it is the exact adjoint only for
    [k = 1].  The data is [1] and the initial guess [0]. *)
Module Runs.
Import XQ.

Definition Ax (x : xq) : xq := x.
Definition Atb (k : Q) (y : xq) : xq := xmul (Fin k) y.
Definition timer (_ : nat) : xq := Fin 0.

(** The dictionary of a base class that stores the data and then a
    solution array of its own. *)
Definition dict : list (string * binding) :=
  [("proj"%string, BProj); ("res"%string, BRes)].

(** The dictionary of a base class that stores the data, then the array
    it was handed as initial guess under [init], and uses that array as
    the solution. *)
Definition dict_init : list (string * binding) :=
  [("proj"%string, BProj); ("init"%string, BRes); ("res"%string, BRes)].

(** Data [1], initial guess [x0], [n] iterations, verbosity [v]. *)
Definition setup (x0 : xq) (n : nat) (v : bool) : IterativeReconAlg xq xq xq :=
  {| init_proj := Fin 1; init_res := x0; init_niter := n;
     init_verbose := v; init_Quameasopts := false; init_lmbda := Fin 0;
     init_dict := dict |}.

(** The constructed solver, for the initial guess [0]. *)
Definition start (k : Q) (n : nat) (v : bool) : machine xq xq CGLS.state :=
  boot (CGLS.__init__ Ax (Atb k) (setup (Fin 0) n v)).

(** The machine after the first [j] iterations of [run_main_iter]. *)
Definition after (k : Q) (n : nat) (v : bool) (j : nat)
  : machine xq xq CGLS.state :=
  snd (for_range (CGLS.iteration Ax (Atb k) timer) (seq 0 j)
         (snd (CGLS.allocate (start k n v)))).

(** A projector that maps every image to zero, with the identity as
    backprojector: the first step size is [1/0]. *)
Definition Ax_null (x : xq) : xq := xmul (Fin 0) x.
Definition Atb_id (y : xq) : xq := y.

Definition start_null (n : nat) : machine xq xq CGLS.state :=
  boot (CGLS.__init__ Ax_null Atb_id (setup (Fin 0) n false)).

(** The machine after the first [j] iterations of that run. *)
Definition after_null (n j : nat) : machine xq xq CGLS.state :=
  snd (for_range (CGLS.iteration Ax_null Atb_id timer) (seq 0 j)
         (snd (CGLS.allocate (start_null n)))).
End Runs.

(** LSMR in exact arithmetic on a lower bidiagonal 3x3 matrix with its
    transpose as adjoint, zero damping, data [(1, 0, 0)] and initial guess
    zero.  The singular values of the matrix lie between 2 and 16. *)
Module Bidiagonal.
Import Exact.

Definition A : list (list exact) :=
  [[Rat 3; Rat 0; Rat 0];
   [Rat 4; Rat 15; Rat 0];
   [Rat 0; Rat (16 # 7); Rat (25 # 12)]].

Definition Ax : list exact -> list exact := matvec A.
Definition Atb : list exact -> list exact := rmatvec 3 A.
Definition timer (_ : nat) : exact := Rat 0.

Definition setup (n : nat) : IterativeReconAlg exact (list exact) (list exact) :=
  {| init_proj := [Rat 1; Rat 0; Rat 0];
     init_res := [Rat 0; Rat 0; Rat 0];
     init_niter := n; init_verbose := false; init_Quameasopts := false;
     init_lmbda := Rat 0;
     init_dict := [("proj"%string, BProj); ("res"%string, BRes)] |}.

(** The machine when [run_main_iter] has ended, for [n] iterations. *)
Definition finished (n : nat) : machine exact (list exact) LSMR.state :=
  snd (LSMR.run_main_iter Ax Atb timer (boot (LSMR.__init__ Ax Atb (setup n)))).

(** [||proj - Forward(res)||], computed directly. *)
Definition true_residual_norm
    (s : @LSMR.state exact (list exact) (list exact)) : exact :=
  norm (vsub (LSMR.proj s) (Ax (LSMR.res s))).
End Bidiagonal.

(** A square root for [XQ], for the runs of LSQR and LSMR on one-cell
    buffers: exact where the root is rational, IEEE on the special values
    and on negative numbers.  An irrational root has no representation in
    [XQ]; it is given as NaN, and the runs below take none. *)
Module XQRoot.
Import XQ.

Definition xsqrt (a : xq) : xq :=
  match a with
  | Fin q =>
      match Exact.root q with
      | Exact.Rat r => Fin r
      | _ => NaN
      end
  | PInf => PInf
  | NInf | NaN => NaN
  end.

#[export] Instance xq_Sqrt : Sqrt xq := xsqrt.
End XQRoot.

(** One-cell buffers over [XQ] with the projector [x |-> a x] and its
    exact adjoint [y |-> a y]; the data is [b] and the initial guess
    [c]. *)
Module Scaled.
Import XQ.

Definition Ax (a : Q) (x : xq) : xq := xmul (Fin a) x.
Definition Atb (a : Q) (y : xq) : xq := xmul (Fin a) y.

Definition setup (b c : Q) (n : nat) (v : bool) : IterativeReconAlg xq xq xq :=
  {| init_proj := Fin b; init_res := Fin c; init_niter := n;
     init_verbose := v; init_Quameasopts := false; init_lmbda := Fin 0;
     init_dict := Runs.dict_init |}.
End Scaled.

(** * Properties *)

(** ** Loops and the stages of a CGLS iteration *)

Ltac unfold_monad :=
  unfold bind, ret, raise, when, get_self, set_self, get_avgtime, set_avgtime,
    call_Ax, call_Atb, default_timer, emit, cell_get, cell_set.


Section Loops.
Context {St R : Type} (body : nat -> M St (option R)).

(** A loop that returned did so in one of its iterations, after the
    earlier ones ran to their end. *)
Lemma for_range_returned (n a : nat) (m m' : St) (x : R) :
  for_range body (seq a n) m = (Val (Some x), m') ->
  exists i m_i, a <= i < a + n /\
    for_range body (seq a (i - a)) m = (Val None, m_i) /\
    body i m_i = (Val (Some x), m').
Proof.
  revert a m. induction n as [|n IH]; intros a m; cbn [seq for_range].
  - unfold ret. intros [=].
  - unfold bind at 1. destruct (body a m) as [[[v|]|e] m1] eqn:Hb.
    + unfold ret. intros [= -> ->]. exists a, m.
      replace (a - a) with 0 by lia. cbn. split; [lia|]. split; [reflexivity|assumption].
    + intros Hrest. destruct (IH _ _ Hrest) as (i & m_i & Hi & Hpre & Hat).
      exists i, m_i. split; [lia|]. split; [|assumption].
      replace (i - a) with (S (i - S a)) by lia.
      cbn [seq for_range]. unfold bind at 1. rewrite Hb. assumption.
    + intros [=].
Qed.

(** A property every iteration keeps is kept by the loop, however it
    ends. *)
Lemma for_range_preserves (P : St -> Prop) :
  (forall i m, P m -> P (snd (body i m))) ->
  forall idx m, P m -> P (snd (for_range body idx m)).
Proof.
  intros Hstep idx. induction idx as [|i rest IH]; intros m Hm; cbn [for_range].
  - assumption.
  - unfold bind at 1. specialize (Hstep i m Hm).
    destruct (body i m) as [[[v|]|e] m1]; cbn [snd] in *; auto.
Qed.
End Loops.

Section CGLSFacts.
Context {F Img Dat : Type}.
Context {FF : Float F} {NI : NDArray F Img} {ND : NDArray F Dat}.
Variable Ax : Img -> Dat.
Variable Atb : Dat -> Img.
Variable timer : nat -> F.
Local Abbreviation mach := (machine F Img (@CGLS.state F Img Dat)).
Local Abbreviation step_size s :=
  (fdiv (CGLS.__gamma__ s)
        (fmul (norm (Ax (CGLS.__p__ s))) (norm (Ax (CGLS.__p__ s))))).

Lemma take_step_eq i (m : mach) :
  CGLS.take_step Ax timer i m =
  (Val (step_size (self m), Ax (CGLS.__p__ (self m)),
        if CGLS.Quameasopts (self m) then Some (CGLS.res (self m)) else None),
   Machine
     (CGLS.set_res
        (vadd (CGLS.res (self m))
              (vscale (step_size (self m)) (CGLS.__p__ (self m))))
        (self m))
     (avgtime m ++ [fabs (fsub (timer (n_timer m)) (timer (S (n_timer m))))])
     (S (n_Ax m)) (n_Atb m) (S (S (n_timer m)))
     (stdout m ++ if CGLS.verbose (self m) then [EstimateTime i] else [])).
Proof.
  unfold CGLS.take_step, CGLS.upd. unfold_monad.
  destruct (CGLS.verbose (self m)); cbn; rewrite ?app_nil_r; reflexivity.
Qed.

Lemma nan_scan_eq i (m : mach) :
  CGLS.nan_scan i m =
  match List.find snd (CGLS.ndarrays (self m)) with
  | Some (item, _) =>
      (Exc (ValueError ("nan found for " ++ item ++ " at iteraton " ++ str i)%string), m)
  | None => (Val tt, m)
  end.
Proof.
  unfold CGLS.nan_scan. unfold_monad.
  destruct (List.find snd (CGLS.ndarrays (self m))) as [[item b]|]; reflexivity.
Qed.

Lemma record_residual_eq i (m : mach) :
  CGLS.record_residual Ax i m =
  let s := self m in
  if decide (i < length (CGLS.l2l s)) then
    (Val tt,
     Machine (CGLS.set_l2l
                (<[i := f32 (norm (vsub (CGLS.proj s) (Ax (CGLS.res s))))]> (CGLS.l2l s)) s)
             (avgtime m) (S (n_Ax m)) (n_Atb m) (n_timer m) (stdout m))
  else
    (Exc IndexError,
     Machine s (avgtime m) (S (n_Ax m)) (n_Atb m) (n_timer m) (stdout m)).
Proof.
  unfold CGLS.record_residual, CGLS.upd. unfold_monad. cbn.
  destruct (decide (i < length (CGLS.l2l (self m)))); reflexivity.
Qed.

Lemma reinitialise_cgls_eq (m : mach) :
  CGLS.reinitialise_cgls Ax Atb m =
  let s := self m in
  let r := vsub (CGLS.proj s) (Ax (CGLS.res s)) in
  let p := Atb r in
  (Val tt,
   Machine (CGLS.set_gamma (fmul (norm p) (norm p)) (CGLS.set_p p (CGLS.set_r r s)))
           (avgtime m) (S (n_Ax m)) (S (n_Atb m)) (n_timer m) (stdout m)).
Proof. reflexivity. Qed.

Lemma direction_update_eq i alpha q res_prev (m : mach) :
  CGLS.direction_update Atb i alpha q res_prev m =
  let s := self m in
  let r := vsub (CGLS.__r__ s) (vscale alpha q) in
  let s_ := Atb r in
  let gamma1 := fmul (norm s_) (norm s_) in
  let beta := fdiv gamma1 (CGLS.__gamma__ s) in
  (Val tt,
   Machine (CGLS.set_p (vadd s_ (vscale beta (CGLS.__p__ s)))
              (CGLS.set_gamma gamma1 (CGLS.set_r r s)))
           (avgtime m) (n_Ax m) (S (n_Atb m)) (n_timer m)
           (stdout m ++ match res_prev with
                        | Some rp => [ErrorMeasurement rp (CGLS.res s) i]
                        | None => []
                        end)).
Proof.
  unfold CGLS.direction_update, CGLS.upd. unfold_monad. cbn.
  destruct res_prev; cbn; rewrite ?app_nil_r; reflexivity.
Qed.

Lemma divergence_check_eq i alpha (m : mach) :
  CGLS.divergence_check Ax Atb i alpha m =
  let s := self m in
  match CGLS.l2l s !! i with
  | None => (Exc IndexError, m)
  | Some cur =>
      match (if 0 <? i then fgt cur <$> CGLS.l2l s !! (i - 1) else Some false) with
      | None => (Exc IndexError, m)
      | Some false => (Val None, m)
      | Some true =>
          let out :=
            stdout m ++
            (if CGLS.verbose s
             then [Print ("re-initilization of CGLS called at iteration:" ++ str i)%string]
             else []) in
          if CGLS.re_init_at_iteration s + 1 =? i then
            (Val (Some (CGLS.res s)),
             Machine s (avgtime m) (n_Ax m) (n_Atb m) (n_timer m)
               (out ++
                (if CGLS.verbose s
                 then [Print "Algorithm exited with two consecutive reinitializations."%string]
                 else [])))
          else
            let x := vsub (CGLS.res s) (vscale alpha (CGLS.__p__ s)) in
            let r := vsub (CGLS.proj s) (Ax x) in
            let p := Atb r in
            (Val None,
             Machine
               (CGLS.set_re_init_at_iteration i
                  (CGLS.set_gamma (fmul (norm p) (norm p))
                     (CGLS.set_p p (CGLS.set_r r (CGLS.set_res x s)))))
               (avgtime m) (S (n_Ax m)) (S (n_Atb m)) (n_timer m) out)
      end
  end.
Proof.
  destruct m as [s ts a b c o]; cbn [self avgtime n_Ax n_Atb n_timer stdout].
  unfold CGLS.divergence_check. unfold bind at 1. unfold get_self at 1.
  cbn [self]. unfold bind at 1. unfold cell_get at 1. cbv zeta.
  destruct (CGLS.l2l s !! i) as [cur|]; [|reflexivity].
  unfold ret at 1. unfold bind at 1.
  destruct (0 <? i).
  - unfold bind at 1. unfold cell_get at 1.
    destruct (CGLS.l2l s !! (i - 1)) as [prev|]; [|reflexivity].
    cbn [fmap option_fmap option_map]. unfold ret at 1 2.
    destruct (fgt cur prev); [|reflexivity].
    destruct (CGLS.re_init_at_iteration s + 1 =? i);
      destruct (CGLS.verbose s); cbn; rewrite ?app_nil_r; reflexivity.
  - unfold ret at 1. reflexivity.
Qed.

Lemma cgls_calls i (m : mach) :
  let m' := snd (CGLS.iteration Ax Atb timer i m) in
  match fst (CGLS.iteration Ax Atb timer i m) with
  | Val None =>
      (CGLS.re_init_at_iteration (self m') = CGLS.re_init_at_iteration (self m)
       /\ n_Ax m' = n_Ax m + 2 /\ n_Atb m' = n_Atb m + 1)
      \/ (CGLS.re_init_at_iteration (self m') = i
          /\ n_Ax m' = n_Ax m + 3 /\ n_Atb m + 1 <= n_Atb m')
  | Val (Some _) => n_Ax m' = n_Ax m + 2 /\ n_Atb m' = n_Atb m
  | Exc (ValueError _) => n_Ax m' = n_Ax m + 1 /\ n_Atb m' = n_Atb m
  | Exc _ => n_Ax m' <= n_Ax m + 2 /\ n_Atb m' = n_Atb m
  end.
Proof.
  destruct (CGLS.iteration Ax Atb timer i m) as [out m'] eqn:E.
  cbn [fst snd]. cbv zeta.
  unfold CGLS.iteration in E. unfold bind at 1 in E. rewrite take_step_eq in E.
  cbv beta iota in E. unfold bind at 1 in E. rewrite nan_scan_eq in E.
  match type of E with context [List.find ?f ?l] =>
    destruct (List.find f l) as [[item b]|] end.
  { injection E as <- <-. cbn. lia. }
  unfold bind at 1 in E. rewrite record_residual_eq in E. cbv zeta in E.
  cbn [self CGLS.set_res CGLS.l2l] in E.
  destruct (decide _); [|injection E as <- <-; cbn; lia].
  unfold bind at 1 in E. rewrite divergence_check_eq in E. cbv zeta in E.
  cbn [self avgtime n_Ax n_Atb n_timer stdout CGLS.set_l2l CGLS.l2l CGLS.verbose
       CGLS.re_init_at_iteration CGLS.res CGLS.proj CGLS.__p__] in E.
  destruct (_ !! i) as [cur|]; [|injection E as <- <-; cbn; lia].
  destruct (if 0 <? i then _ else _) as [[|]|]; [| |injection E as <- <-; cbn; lia].
  - destruct (_ =? i).
    + injection E as <- <-. cbn. lia.
    + unfold bind at 1 in E. rewrite direction_update_eq in E.
      injection E as <- <-. cbn. right. lia.
  - unfold bind at 1 in E. rewrite direction_update_eq in E.
    injection E as <- <-. cbn. left. lia.
Qed.

Lemma allocate_eq (m : mach) :
  CGLS.allocate m =
  (Val tt,
   Machine (CGLS.set_l2l (replicate (CGLS.niter (self m)) fzero) (self m)) []
           (n_Ax m) (n_Atb m) (n_timer m) (stdout m)).
Proof. reflexivity. Qed.

(** Splits an outcome equation of [CGLS.iteration] into the paths through
    the body. *)
Ltac iteration_paths E :=
  unfold CGLS.iteration in E; unfold bind at 1 in E; rewrite take_step_eq in E;
  cbv beta iota in E; unfold bind at 1 in E; rewrite nan_scan_eq in E;
  match type of E with context [List.find ?f ?l] =>
    destruct (List.find f l) as [[? ?]|] eqn:?
  end;
  [ | unfold bind at 1 in E; rewrite record_residual_eq in E; cbv zeta in E;
      cbn [self CGLS.set_res CGLS.l2l] in E;
      destruct (decide _) as [?|?];
      [ unfold bind at 1 in E; rewrite divergence_check_eq in E; cbv zeta in E;
        cbn [self avgtime n_Ax n_Atb n_timer stdout CGLS.set_l2l CGLS.l2l
             CGLS.verbose CGLS.re_init_at_iteration CGLS.res CGLS.proj
             CGLS.__p__] in E;
        destruct (_ !! _) as [?|] eqn:? in E;
        [ destruct (if 0 <? _ then _ else _) as [[|]|] eqn:? in E;
          [ destruct (_ =? _) eqn:? in E;
            [ | unfold bind at 1 in E; rewrite direction_update_eq in E ]
          | unfold bind at 1 in E; rewrite direction_update_eq in E
          | ]
        | ]
      | ] ].

Lemma iteration_history_length i (m : mach) :
  length (CGLS.l2l (self (snd (CGLS.iteration Ax Atb timer i m))))
  = length (CGLS.l2l (self m)).
Proof.
  destruct (CGLS.iteration Ax Atb timer i m) as [out m'] eqn:E. cbn [snd].
  iteration_paths E; injection E as <- <-; cbn; rewrite ?length_insert; reflexivity.
Qed.

Lemma iteration_niter i (m : mach) :
  CGLS.niter (self (snd (CGLS.iteration Ax Atb timer i m))) = CGLS.niter (self m).
Proof.
  destruct (CGLS.iteration Ax Atb timer i m) as [out m'] eqn:E. cbn [snd].
  iteration_paths E; injection E as <- <-; reflexivity.
Qed.

Lemma iteration_returned i (m m' : mach) x :
  CGLS.iteration Ax Atb timer i m = (Val (Some x), m') ->
  x = vadd (CGLS.res (self m)) (vscale (step_size (self m)) (CGLS.__p__ (self m)))
  /\ CGLS.res (self m') = x
  /\ CGLS.re_init_at_iteration (self m) + 1 = i.
Proof.
  intros E. iteration_paths E; try discriminate E.
  injection E as <- <-. cbn. split; [reflexivity|]. split; [reflexivity|].
  by apply Nat.eqb_eq.
Qed.

Lemma run_main_iter_returned (m m' : mach) x :
  CGLS.run_main_iter Ax Atb timer m = (Val (Some x), m') ->
  for_range (CGLS.iteration Ax Atb timer) (seq 0 (CGLS.niter (self m)))
    (snd (CGLS.allocate m)) = (Val (Some x), m').
Proof.
  unfold CGLS.run_main_iter. unfold bind at 1. rewrite allocate_eq.
  unfold bind at 1, get_self at 1. cbn [self CGLS.set_l2l CGLS.niter snd].
  unfold bind at 1.
  destruct (for_range _ _ _) as [[[v|]|e] m1]; [done| |done].
  unfold bind at 1, get_self at 1, bind at 1.
  destruct (when _ _ m1) as [[|] ?]; unfold ret; discriminate.
Qed.

Lemma run_main_iter_history_length (m : mach) :
  length (CGLS.l2l (self (snd (CGLS.run_main_iter Ax Atb timer m))))
  = CGLS.niter (self m).
Proof.
  unfold CGLS.run_main_iter. unfold bind at 1. rewrite allocate_eq.
  unfold bind at 1, get_self at 1. cbn [self CGLS.set_l2l CGLS.niter].
  set (m0 := Machine _ _ _ _ _ _).
  assert (H0 : length (CGLS.l2l (self m0)) = CGLS.niter (self m))
    by (cbn; apply length_replicate).
  pose proof (for_range_preserves (CGLS.iteration Ax Atb timer)
    (fun m1 : mach => length (CGLS.l2l (self m1)) = CGLS.niter (self m))
    (fun i m1 H => eq_trans (iteration_history_length i m1) H)
    (seq 0 (CGLS.niter (self m))) m0 H0) as Hloop.
  cbv beta in Hloop. unfold bind at 1.
  destruct (for_range _ _ m0) as [[[v|]|e] m1]; cbn [snd] in *; try assumption.
  unfold bind at 1, get_self at 1, bind at 1, when, CGLS.print_average.
  destruct (CGLS.verbose (self m1)); [|assumption].
  unfold bind at 1, get_avgtime at 1.
  destruct (length (avgtime m1) =? 0); cbn; assumption.
Qed.

(** The first element a [find] returns, with what comes before it. *)
Lemma find_first {A : Type} (f : A -> bool) (l : list A) (x : A) :
  List.find f l = Some x ->
  exists before after,
    l = before ++ x :: after
    /\ Forall (fun e => f e = false) before
    /\ f x = true.
Proof.
  induction l as [|y l IH]; cbn [List.find]; [discriminate|].
  destruct (f y) eqn:Hy.
  - intros [= ->]. exists [], l. repeat split; [constructor|exact Hy].
  - intros H. destruct (IH H) as (before & after & -> & Hbefore & Hx).
    exists (y :: before), after. repeat split; [constructor|]; assumption.
Qed.

Lemma assign_In (k : string) (b : binding) (d : list (string * binding)) :
  In (k, b) (assign k b d).
Proof.
  induction d as [|[k' b'] d IH]; cbn [assign]; [by left|].
  destruct (String.eqb k k'); [by left|by right].
Qed.

Lemma assign_In_other (k : string) (b : binding) (d : list (string * binding))
    (k' : string) (b' : binding) :
  k' <> k -> In (k', b') (assign k b d) <-> In (k', b') d.
Proof.
  intros Hne. induction d as [|[k2 b2] d IH]; cbn [assign].
  - split; [intros [[= -> ->]|[]]; contradiction|intros []].
  - destruct (String.eqb k k2) eqn:E.
    + apply String.eqb_eq in E. subst k2. cbn [In]. split.
      * intros [[= -> ->]|H]; [contradiction|by right].
      * intros [[= -> ->]|H]; [contradiction|by right].
    + cbn [In]. rewrite IH. reflexivity.
Qed.

(** The arrays of the solver itself are in the dictionary when it is
    scanned, whatever the base class stored. *)
Lemma scan_dict_own (d : list (string * binding)) :
  In ("res"%string, BRes) (CGLS.scan_dict d)
  /\ In ("__r__"%string, BR) (CGLS.scan_dict d)
  /\ In ("__p__"%string, BP) (CGLS.scan_dict d)
  /\ In ("l2l"%string, BL2l) (CGLS.scan_dict d).
Proof.
  unfold CGLS.scan_dict. repeat split.
  - apply assign_In.
  - do 4 (apply assign_In_other; [discriminate|]). apply assign_In.
  - do 3 (apply assign_In_other; [discriminate|]). apply assign_In.
  - apply assign_In_other; [discriminate|]. apply assign_In.
Qed.

(** An entry of the scan that holds a NaN is a name of the dictionary
    bound to an array that holds one. *)
Lemma ndarrays_In (s : @CGLS.state F Img Dat) (item : string) :
  In (item, true) (CGLS.ndarrays s)
  <-> exists b, In (item, b) (CGLS.scan_dict (CGLS.base_dict s))
                /\ CGLS.nan_in s b = true.
Proof.
  unfold CGLS.ndarrays. rewrite <- list_elem_of_In, list_elem_of_omap. split.
  - intros ([k b] & Hin & Hsc). apply list_elem_of_In in Hin.
    unfold CGLS.scanned in Hsc. cbn [fst snd] in Hsc.
    destruct b; try discriminate Hsc; injection Hsc as -> Hb; eauto.
  - intros (b & Hin & Hb). exists (item, b). split; [by apply list_elem_of_In|].
    unfold CGLS.scanned. cbn [fst snd].
    destruct b; try (by rewrite <- Hb); discriminate Hb.
Qed.

(** C4, as amended.  After the step update the iteration raises
    [ValueError] exactly when some name of the object's dictionary is
    bound to an array that holds a NaN.  The arrays of the solver itself
    ([res], [__r__], [__p__], [l2l]) are always among them.  The message
    names the first such name in the insertion order of the dictionary
    (a name stored before [res] and bound to the same array is named
    instead of [res]) and the iteration index; the machine is the one left
    by the step update.  Infinities and the scalar [__gamma__] play no
    part in the test. *)
Theorem cgls_abort_iff_nan_array (i : nat) (m : mach) :
  let m1 := snd (CGLS.take_step Ax timer i m) in
  let s1 := self m1 in
  let out := fst (CGLS.iteration Ax Atb timer i m) in
  ((exists msg, out = Exc (ValueError msg))
   <-> (exists name b,
          In (name, b) (CGLS.scan_dict (CGLS.base_dict s1))
          /\ CGLS.nan_in s1 b = true))
  /\ (hasnan (CGLS.res s1) = true \/ hasnan (CGLS.__r__ s1) = true
      \/ hasnan (CGLS.__p__ s1) = true \/ existsb fisnan (CGLS.l2l s1) = true ->
      exists msg, out = Exc (ValueError msg))
  /\ (forall msg,
        out = Exc (ValueError msg) ->
        snd (CGLS.iteration Ax Atb timer i m) = m1
        /\ exists item before after,
             CGLS.ndarrays s1 = before ++ (item, true) :: after
             /\ Forall (fun e => snd e = false) before
             /\ msg = ("nan found for " ++ item ++ " at iteraton " ++ str i)%string).
Proof.
  assert (Hiff :
    (exists msg, fst (CGLS.iteration Ax Atb timer i m) = Exc (ValueError msg))
    <-> (exists item,
           In (item, true)
              (CGLS.ndarrays (self (snd (CGLS.take_step Ax timer i m)))))).
  { destruct (CGLS.iteration Ax Atb timer i m) as [out m'] eqn:E.
    rewrite take_step_eq. cbn [fst snd].
    iteration_paths E; injection E as <- <-.
    1: { match goal with H : List.find _ _ = Some (_, ?b) |- _ =>
           apply find_some in H as [Hin Hb]; cbn in Hb; subst b end.
         split; intros _; eauto. }
    all: match goal with H : List.find _ _ = None |- _ =>
           pose proof (find_none _ _ H) as Hnone end.
    all: split; [intros [? [=]]|].
    all: intros [item Hin]; apply Hnone in Hin; discriminate. }
  cbv zeta. split; [|split].
  - rewrite Hiff. split.
    + intros [item Hin].
      destruct (proj1 (ndarrays_In _ _) Hin) as (b & Hin' & Hb). eauto.
    + intros (name & b & Hin & Hb). exists name. apply ndarrays_In. eauto.
  - intros Hnan. apply Hiff.
    destruct (scan_dict_own
                (CGLS.base_dict (self (snd (CGLS.take_step Ax timer i m)))))
      as (Hres & Hr & Hp & Hl).
    destruct Hnan as [H|[H|[H|H]]];
      [exists "res"%string|exists "__r__"%string|exists "__p__"%string
      |exists "l2l"%string];
      apply ndarrays_In; eauto.
  - intros msg.
    destruct (CGLS.iteration Ax Atb timer i m) as [out m'] eqn:E.
    rewrite take_step_eq. cbn [fst snd].
    iteration_paths E; injection E as <- <-; intros [= <-].
    split; [reflexivity|].
    match goal with H : List.find _ _ = Some (?it, ?b) |- _ =>
      apply find_first in H as (before & after & Hl & Hbefore & Hb);
      cbn in Hb; subst b; exists it, before, after end.
    repeat split; assumption.
Qed.

Lemma run_main_iter_zero (m : mach) :
  CGLS.niter (self m) = 0 ->
  CGLS.run_main_iter Ax Atb timer m =
  (if CGLS.verbose (self m) then Exc ZeroDivisionError else Val None,
   Machine (CGLS.set_l2l [] (self m)) [] (n_Ax m) (n_Atb m) (n_timer m) (stdout m)).
Proof.
  intros Hn. unfold CGLS.run_main_iter, bind. rewrite allocate_eq.
  unfold get_self. cbn [self CGLS.set_l2l CGLS.niter]. rewrite Hn.
  cbn. destruct (CGLS.verbose (self m)); reflexivity.
Qed.

(** C9.  A verbose CGLS run of zero iterations ends in a
    [ZeroDivisionError]: the list [avgtime] is empty when its average is
    printed. *)
Theorem cgls_verbose_zero_iterations_raises (m : mach) :
  CGLS.verbose (self m) = true ->
  CGLS.niter (self m) = 0 ->
  fst (CGLS.run_main_iter Ax Atb timer m) = Exc ZeroDivisionError
  /\ avgtime (snd (CGLS.run_main_iter Ax Atb timer m)) = [].
Proof.
  intros Hv Hn. rewrite (run_main_iter_zero m Hn), Hv. split; reflexivity.
Qed.
End CGLSFacts.

(** ** LSQR and LSMR, and the properties shared by the solvers *)

Section BidiagonalizationFacts.
Context {F Img Dat : Type}.
Context {FF : Float F} {SF : Sqrt F} {NI : NDArray F Img} {ND : NDArray F Dat}.
Variable Ax : Img -> Dat.
Variable Atb : Dat -> Img.
Variable timer : nat -> F.
Local Abbreviation lsqr := (machine F Img (@LSQR.state F Img Dat)).
Local Abbreviation lsmr := (machine F Img (@LSMR.state F Img Dat)).

Lemma lsqr_bidiagonalize_eq (m : lsqr) :
  LSQR.bidiagonalize Ax Atb m =
  (Val (bidiag_step Ax Atb (LSQR.__u__ (self m)) (LSQR.__alpha__ (self m))
          (LSQR.__v__ (self m))),
   Machine (self m) (avgtime m) (S (n_Ax m)) (S (n_Atb m)) (n_timer m) (stdout m)).
Proof. reflexivity. Qed.

Lemma lsmr_bidiagonalize_eq (m : lsmr) :
  LSMR.bidiagonalize Ax Atb m =
  (Val (bidiag_step Ax Atb (LSMR.__u__ (self m)) (LSMR.__alpha__ (self m))
          (LSMR.__v__ (self m))),
   Machine (self m) (avgtime m) (S (n_Ax m)) (S (n_Atb m)) (n_timer m) (stdout m)).
Proof. reflexivity. Qed.

Lemma lsqr_iteration_eq i (m : lsqr) :
  LSQR.iteration Ax Atb timer i m =
  let s := self m in
  let '(u, beta, v, alpha) :=
    bidiag_step Ax Atb (LSQR.__u__ s) (LSQR.__alpha__ s) (LSQR.__v__ s) in
  let s1 := LSQR.rotation s u beta v alpha in
  (Val None,
   Machine s1
     (avgtime m ++ [fabs (fsub (timer (n_timer m)) (timer (S (n_timer m))))])
     (S (n_Ax m)) (S (n_Atb m)) (S (S (n_timer m)))
     ((stdout m ++ if LSQR.verbose s then [EstimateTime i] else [])
        ++ if LSQR.Quameasopts s
           then [ErrorMeasurement (LSQR.res s) (LSQR.res s1) i] else [])).
Proof.
  unfold LSQR.iteration. unfold bind at 1, get_self at 1.
  unfold bind at 1.
  assert (Hw : when (LSQR.verbose (self m)) (emit (EstimateTime i)) m
               = (Val tt, Machine (self m) (avgtime m) (n_Ax m) (n_Atb m) (n_timer m)
                    (stdout m ++ if LSQR.verbose (self m) then [EstimateTime i] else []))).
  { destruct m as [s ts a b c o]; cbn [self]. destruct (LSQR.verbose s); cbn.
    - reflexivity.
    - rewrite app_nil_r. reflexivity. }
  rewrite Hw. clear Hw.
  unfold bind at 1, default_timer at 1. cbn [self avgtime n_Ax n_Atb n_timer stdout].
  unfold bind at 1. rewrite lsqr_bidiagonalize_eq.
  cbn [self avgtime n_Ax n_Atb n_timer stdout]. cbv zeta.
  destruct (bidiag_step _ _ _ _ _) as [[[u beta] v] alpha].
  destruct (LSQR.Quameasopts (self m)); cbn -[LSQR.rotation];
    rewrite ?app_nil_r; reflexivity.
Qed.

Lemma lsqr_iteration_calls i (m : lsqr) :
  let m' := snd (LSQR.iteration Ax Atb timer i m) in
  n_Ax m' = S (n_Ax m) /\ n_Atb m' = S (n_Atb m).
Proof.
  rewrite lsqr_iteration_eq. cbv zeta.
  destruct (bidiag_step _ _ _ _ _) as [[[u beta] v] alpha]. cbn [snd n_Ax n_Atb].
  split; reflexivity.
Qed.

Lemma rotations_betadd (s : @LSMR.state F Img Dat) u beta v alpha :
  LSMR.__betadd__ (fst (LSMR.rotations s u beta v alpha)) = LSMR.__betadd__ s.
Proof. reflexivity. Qed.

Lemma rotations_l2l (s : @LSMR.state F Img Dat) u beta v alpha :
  LSMR.l2l (fst (LSMR.rotations s u beta v alpha)) = LSMR.l2l s.
Proof. reflexivity. Qed.

(** What an LSMR iteration leaves: the attributes computed by
    [LSMR.rotations], and the history slot when the index is in range. *)
Lemma lsmr_iteration_eq i (m : lsmr) :
  LSMR.iteration Ax Atb timer i m =
  let s := self m in
  let '(u, beta, v, alpha) :=
    bidiag_step Ax Atb (LSMR.__u__ s) (LSMR.__alpha__ s) (LSMR.__v__ s) in
  let new := LSMR.rotations s u beta v alpha in
  let out := stdout m ++ if LSMR.verbose s then [EstimateTime i] else [] in
  if decide (i < length (LSMR.l2l s)) then
    (Val None,
     Machine (LSMR.set_l2l (<[i := snd new]> (LSMR.l2l s)) (fst new))
       (avgtime m ++ [fabs (fsub (timer (n_timer m)) (timer (S (n_timer m))))])
       (S (n_Ax m)) (S (n_Atb m)) (S (S (n_timer m)))
       (out ++ if LSMR.Quameasopts s
               then [ErrorMeasurement (LSMR.res s) (LSMR.res (fst new)) i]
               else []))
  else
    (Exc IndexError,
     Machine (fst new) (avgtime m) (S (n_Ax m)) (S (n_Atb m)) (S (n_timer m)) out).
Proof.
  unfold LSMR.iteration. unfold bind at 1, get_self at 1.
  unfold bind at 1.
  assert (Hw : when (LSMR.verbose (self m)) (emit (EstimateTime i)) m
               = (Val tt, Machine (self m) (avgtime m) (n_Ax m) (n_Atb m) (n_timer m)
                    (stdout m ++ if LSMR.verbose (self m) then [EstimateTime i] else []))).
  { destruct m as [s ts a b c o]; cbn [self]. destruct (LSMR.verbose s); cbn.
    - reflexivity.
    - rewrite app_nil_r. reflexivity. }
  rewrite Hw. clear Hw.
  unfold bind at 1, default_timer at 1. cbn [self avgtime n_Ax n_Atb n_timer stdout].
  unfold bind at 1. rewrite lsmr_bidiagonalize_eq.
  cbn [self avgtime n_Ax n_Atb n_timer stdout]. cbv zeta.
  destruct (bidiag_step _ _ _ _ _) as [[[u beta] v] alpha].
  unfold bind at 1, set_self at 1. cbn [self avgtime n_Ax n_Atb n_timer stdout].
  unfold bind at 1, cell_set at 1.
  destruct (decide (i < length (LSMR.l2l (self m)))); [|reflexivity].
  unfold ret at 1. unfold bind at 1, get_self at 1.
  cbn [self avgtime n_Ax n_Atb n_timer stdout].
  destruct (LSMR.Quameasopts (self m)); cbn -[LSMR.rotations];
    rewrite ?app_nil_r; reflexivity.
Qed.

Lemma lsmr_iteration_calls i (m : lsmr) :
  let m' := snd (LSMR.iteration Ax Atb timer i m) in
  n_Ax m' = S (n_Ax m) /\ n_Atb m' = S (n_Atb m).
Proof.
  rewrite lsmr_iteration_eq. cbv zeta.
  destruct (bidiag_step _ _ _ _ _) as [[[u beta] v] alpha].
  destruct (decide _); cbn [snd n_Ax n_Atb]; split; reflexivity.
Qed.

Lemma lsmr_iteration_betadd i (m : lsmr) :
  LSMR.__betadd__ (self (snd (LSMR.iteration Ax Atb timer i m)))
  = LSMR.__betadd__ (self m).
Proof.
  rewrite lsmr_iteration_eq. cbv zeta.
  destruct (bidiag_step _ _ _ _ _) as [[[u beta] v] alpha].
  destruct (decide _); cbn [snd self]; [|apply rotations_betadd].
  rewrite <- (rotations_betadd (self m) u beta v alpha).
  destruct (LSMR.rotations _ _ _ _ _) as [s1 g]. reflexivity.
Qed.

Lemma lsqr_iteration_res_niter0 (m : lsqr) :
  LSQR.niter (self m) = 0 ->
  LSQR.res (self (snd (LSQR.run_main_iter Ax Atb timer m))) = LSQR.res (self m).
Proof.
  intros Hn. unfold LSQR.run_main_iter, LSQR.allocate. unfold_monad.
  cbn [self LSQR.set_l2l LSQR.niter]. rewrite Hn. reflexivity.
Qed.

Lemma lsmr_iteration_res_niter0 (m : lsmr) :
  LSMR.niter (self m) = 0 ->
  LSMR.res (self (snd (LSMR.run_main_iter Ax Atb timer m))) = LSMR.res (self m).
Proof.
  intros Hn. unfold LSMR.run_main_iter, LSMR.allocate. unfold_monad.
  cbn [self LSMR.set_l2l LSMR.niter]. rewrite Hn. reflexivity.
Qed.

Lemma lsmr_loop_betadd idx (m : lsmr) :
  LSMR.__betadd__ (self (snd (for_range (LSMR.iteration Ax Atb timer) idx m)))
  = LSMR.__betadd__ (self m).
Proof.
  apply (for_range_preserves (LSMR.iteration Ax Atb timer)
           (fun m1 : lsmr => LSMR.__betadd__ (self m1) = LSMR.__betadd__ (self m)));
    [|reflexivity].
  intros i m1 H. rewrite lsmr_iteration_betadd. exact H.
Qed.

(** C6, as amended.  What [LSMR.__init__] stores besides the start of the
    bidiagonalization: of the scalars of the residual-norm chain, [betadd]
    is [beta], [rhod] is 1 and the others are 0. *)
Theorem lsmr_init_values (b : IterativeReconAlg F Img Dat) :
  let s := LSMR.__init__ Ax Atb b in
  LSMR.__beta__ s = norm (vsub (init_proj b) (Ax (init_res b)))
  /\ LSMR.__alphabar__ s = LSMR.__alpha__ s
  /\ LSMR.__zetabar__ s = fmul (LSMR.__alpha__ s) (LSMR.__beta__ s)
  /\ LSMR.__rho__ s = fone /\ LSMR.__rhobar__ s = fone /\ LSMR.__cbar__ s = fone
  /\ LSMR.__sbar__ s = fzero
  /\ LSMR.__h__ s = LSMR.__v__ s
  /\ LSMR.__hbar__ s = inl fzero
  /\ LSMR.__betadd__ s = LSMR.__beta__ s
  /\ LSMR.__rhod__ s = fone
  /\ LSMR.__betad__ s = fzero /\ LSMR.__tautilda__ s = fzero
  /\ LSMR.__thetatilda__ s = fzero /\ LSMR.__zeta__ s = fzero
  /\ LSMR.__d__ s = fzero.
Proof. cbn. repeat split. Qed.

(** C7, as amended.  Every LSQR and every LSMR iteration calls the forward
    operator once and the adjoint once.  A CGLS iteration that runs to its
    end without a restart calls the forward operator twice and the adjoint
    once; one that restarts calls the forward operator three times (the
    third call is made by [reinitialise_cgls]) and the adjoint at least
    once; one that returns early makes two forward calls and no adjoint
    call; one that raises makes at most two forward calls and no adjoint
    call. *)
Theorem operator_calls_per_iteration :
  (forall i (m : lsqr),
      let m' := snd (LSQR.iteration Ax Atb timer i m) in
      n_Ax m' = n_Ax m + 1 /\ n_Atb m' = n_Atb m + 1)
  /\ (forall i (m : lsmr),
      let m' := snd (LSMR.iteration Ax Atb timer i m) in
      n_Ax m' = n_Ax m + 1 /\ n_Atb m' = n_Atb m + 1)
  /\ (forall i (m : machine F Img (@CGLS.state F Img Dat)),
      let m' := snd (CGLS.iteration Ax Atb timer i m) in
      match fst (CGLS.iteration Ax Atb timer i m) with
      | Val None =>
          (CGLS.re_init_at_iteration (self m') = CGLS.re_init_at_iteration (self m)
           /\ n_Ax m' = n_Ax m + 2 /\ n_Atb m' = n_Atb m + 1)
          \/ (CGLS.re_init_at_iteration (self m') = i
              /\ n_Ax m' = n_Ax m + 3 /\ n_Atb m + 1 <= n_Atb m')
      | Val (Some _) => n_Ax m' = n_Ax m + 2 /\ n_Atb m' = n_Atb m
      | Exc (ValueError _) => n_Ax m' = n_Ax m + 1 /\ n_Atb m' = n_Atb m
      | Exc _ => n_Ax m' <= n_Ax m + 2 /\ n_Atb m' = n_Atb m
      end).
Proof.
  split; [|split].
  - intros i m. pose proof (lsqr_iteration_calls i m) as H. cbv zeta in *. lia.
  - intros i m. pose proof (lsmr_iteration_calls i m) as H. cbv zeta in *. lia.
  - intros i m. apply cgls_calls.
Qed.

(** C8.  With an iteration count of zero, [run_main_iter] of each solver
    leaves [res] equal to the initial guess given to the constructor. *)
Theorem zero_iterations_keep_initial_guess (b : IterativeReconAlg F Img Dat) :
  init_niter b = 0 ->
  CGLS.res (self (snd (CGLS.run_main_iter Ax Atb timer
                         (boot (CGLS.__init__ Ax Atb b))))) = init_res b
  /\ LSQR.res (self (snd (LSQR.run_main_iter Ax Atb timer
                            (boot (LSQR.__init__ Ax Atb b))))) = init_res b
  /\ LSMR.res (self (snd (LSMR.run_main_iter Ax Atb timer
                            (boot (LSMR.__init__ Ax Atb b))))) = init_res b.
Proof.
  intros Hn. split; [|split].
  - rewrite run_main_iter_zero by exact Hn. reflexivity.
  - rewrite lsqr_iteration_res_niter0 by exact Hn. reflexivity.
  - rewrite lsmr_iteration_res_niter0 by exact Hn. reflexivity.
Qed.

(** C10.  The attribute [__betadd__] of an LSMR object is the residual
    norm [beta] computed by the constructor, after any number of
    iterations and at the end of [run_main_iter]: the loop body computes
    [-s * betaacute] into a local and stores nothing. *)
Theorem lsmr_betadd_never_updated (b : IterativeReconAlg F Img Dat) (n : nat) :
  let m0 := boot (LSMR.__init__ Ax Atb b) in
  let beta0 := norm (vsub (init_proj b) (Ax (init_res b))) in
  LSMR.__betadd__ (self m0) = beta0
  /\ LSMR.__betadd__
       (self (snd (for_range (LSMR.iteration Ax Atb timer) (seq 0 n)
                     (snd (LSMR.allocate m0))))) = beta0
  /\ LSMR.__betadd__ (self (snd (LSMR.run_main_iter Ax Atb timer m0))) = beta0.
Proof.
  cbv zeta. split; [reflexivity|]. split.
  - rewrite lsmr_loop_betadd. reflexivity.
  - unfold LSMR.run_main_iter. unfold bind at 1.
    destruct (LSMR.allocate _) as [[[]|e] m1] eqn:E; [|discriminate E].
    unfold bind at 1, get_self at 1. rewrite lsmr_loop_betadd.
    injection E as <-. reflexivity.
Qed.
End BidiagonalizationFacts.

(** ** The exact numbers denote real numbers *)

Section ExactIsExact.
Import Exact.
Local Open Scope R_scope.

Lemma Q2R_Qred (q : Q) : Q2R (Qred q) = Q2R q.
Proof. apply Qeq_eqR, Qred_correct. Qed.

Lemma Qnum_nonzero (y : Q) : Qnum y <> 0%Z -> ~ (y == 0)%Q.
Proof. unfold Qeq. cbn. lia. Qed.

Lemma real_eadd a b x y :
  real a = Some x -> real b = Some y -> eadd a b <> Undef ->
  real (eadd a b) = Some (x + y).
Proof.
  destruct a as [p|p|], b as [q|q|]; cbn [eadd real]; try congruence.
  intros [= <-] [= <-] _. by rewrite Q2R_Qred, Q2R_plus.
Qed.

Lemma real_esub a b x y :
  real a = Some x -> real b = Some y -> esub a b <> Undef ->
  real (esub a b) = Some (x - y).
Proof.
  destruct a as [p|p|], b as [q|q|]; cbn [esub real]; try congruence.
  intros [= <-] [= <-] _. by rewrite Q2R_Qred, Q2R_minus.
Qed.

Lemma real_eneg a x :
  real a = Some x -> eneg a <> Undef -> real (eneg a) = Some (- x).
Proof.
  destruct a as [p|p|]; cbn [eneg real]; try congruence.
  intros [= <-] _. by rewrite Q2R_Qred, Q2R_opp.
Qed.

Lemma real_ediv a b x y :
  real a = Some x -> real b = Some y -> ediv a b <> Undef ->
  real (ediv a b) = Some (x / y) /\ y <> 0.
Proof.
  destruct a as [p|p|], b as [q|q|]; cbn [ediv real]; try congruence.
  intros [= <-] [= <-].
  destruct (Qnum q) eqn:Hq; [congruence| |]; intros _; cbn [real].
  all: assert (Hne : ~ (q == 0)%Q) by (apply Qnum_nonzero; rewrite Hq; lia).
  all: split; [by rewrite Q2R_Qred, Q2R_div|].
  all: intros H0; apply Hne, eqR_Qeq; rewrite H0; unfold Q2R; cbn; lra.
Qed.

Lemma Qltb_lt x y : Qltb x y = true -> (x < y)%Q.
Proof.
  unfold Qltb. destruct (x ?= y)%Q eqn:H; try discriminate.
  intros _. by apply Qlt_alt.
Qed.

Lemma Q2R_pos q : (0 < q)%Q -> 0 < Q2R q.
Proof. intros H. apply Qlt_Rlt in H. by rewrite RMicromega.Q2R_0 in H. Qed.

Lemma is_square_sqrt z : is_square z = true -> (Z.sqrt z * Z.sqrt z = z)%Z.
Proof. unfold is_square. apply Z.eqb_eq. Qed.

(** The root of a non-negative rational. *)
Lemma real_root q : root q <> Undef -> real (root q) = Some (sqrt (Q2R q)).
Proof.
  unfold root. rewrite <- (Q2R_Qred q).
  destruct (Qred q) as [n d]. cbn [Qnum Qden].
  assert (Hsq : forall n : Z, (0 <= n)%Z ->
    (if is_square n && is_square (Z.pos d)
     then Rat (Z.sqrt n # Z.to_pos (Z.sqrt (Z.pos d))) else Surd (n # d)) <> Undef ->
    real (if is_square n && is_square (Z.pos d)
          then Rat (Z.sqrt n # Z.to_pos (Z.sqrt (Z.pos d))) else Surd (n # d))
    = Some (sqrt (Q2R (n # d)))).
  { clear n. intros n Hn _.
    destruct (is_square n && is_square (Z.pos d)) eqn:E; [|reflexivity].
    apply andb_true_iff in E as [En Ed].
    apply is_square_sqrt in En, Ed.
    assert (Hsd : (0 < Z.sqrt (Z.pos d))%Z) by (apply Z.sqrt_pos; lia).
    cbn [real]. f_equal. symmetry. apply sqrt_lem_1.
    - unfold Q2R. cbn [Qnum Qden]. apply Rmult_le_pos.
      + apply IZR_le. lia.
      + left. apply Rinv_0_lt_compat, IZR_lt. lia.
    - unfold Q2R. cbn [Qnum Qden]. apply Rmult_le_pos.
      + apply IZR_le. apply Z.sqrt_nonneg.
      + left. apply Rinv_0_lt_compat, IZR_lt. lia.
    - unfold Q2R. cbn [Qnum Qden]. rewrite Z2Pos.id by lia.
      rewrite <- En at 3. rewrite <- Ed at 3. rewrite !mult_IZR.
      field. apply not_0_IZR; lia. }
  destruct n as [|n|n]; [apply Hsq; lia | apply Hsq; lia | congruence].
Qed.

Lemma real_esqrt a x :
  real a = Some x -> esqrt a <> Undef -> real (esqrt a) = Some (sqrt x).
Proof.
  destruct a as [p|p|]; cbn [esqrt real]; try congruence.
  intros [= <-]. apply real_root.
Qed.

Lemma real_emul a b x y :
  real a = Some x -> real b = Some y -> emul a b <> Undef ->
  real (emul a b) = Some (x * y).
Proof.
  destruct a as [p|p|], b as [q|q|]; cbn [emul real]; try congruence.
  - intros [= <-] [= <-] _. by rewrite Q2R_Qred, Q2R_mult.
  - intros [= <-] [= <-].
    destruct (Qltb 0 p && Qltb 0 q) eqn:E; [|congruence].
    apply andb_true_iff in E as [Hp Hq].
    apply Qltb_lt, Q2R_pos in Hp. apply Qltb_lt, Q2R_pos in Hq.
    intros Hdef. rewrite (real_root _ Hdef), Q2R_mult, sqrt_mult by lra.
    reflexivity.
Qed.

(** Two formal roots of different non-negative rationals are different
    real numbers. *)
Lemma real_surd_neq p q :
  (0 <= p)%Q -> (0 <= q)%Q -> ~ (p == q)%Q -> real (Surd p) <> real (Surd q).
Proof.
  intros Hp Hq Hne [= H]. apply Hne, eqR_Qeq.
  apply Qle_Rle in Hp, Hq. rewrite RMicromega.Q2R_0 in Hp, Hq.
  by apply sqrt_inj.
Qed.
End ExactIsExact.

(** ** The concrete runs *)

Section CGLSRuns.
Import XQ.
Local Abbreviation Ax := Runs.Ax.
Local Abbreviation Atb := (Runs.Atb (5 # 4)).
Local Abbreviation timer := Runs.timer.

(** C1: the code at a restart.  With the backprojector scaled by 5/4 the
    residual history starts 1/4, 1/6 and iteration 2 records 1/4 > 1/6;
    the last restart mark is 0, so the iteration restarts: the step is
    undone ([res] is 5/6 again) and the mark becomes 2.  The iteration
    then goes on through lines 86-94: it calls the adjoint a second time
    and ends with [r], [p], [gamma] that are not the reinitialised ones
    (those of a solver constructed on the reverted [res]). *)
Theorem cgls_restart_falls_through :
  let m2 := Runs.after (5 # 4) 5 false 2 in
  let r := CGLS.iteration Ax Atb timer 2 m2 in
  let s3 := self (snd r) in
  let fresh := CGLS.__init__ Ax Atb (Runs.setup (CGLS.res s3) 5 false) in
  fst r = Val None
  /\ CGLS.l2l s3 = [Fin (1 # 4); Fin (1 # 6); Fin (1 # 4); Fin 0; Fin 0]
  /\ CGLS.re_init_at_iteration (self m2) = 0
  /\ CGLS.re_init_at_iteration s3 = 2
  /\ CGLS.res s3 = CGLS.res (self m2)
  /\ (CGLS.__r__ fresh, CGLS.__p__ fresh, CGLS.__gamma__ fresh)
     = (Fin (1 # 6), Fin (5 # 24), Fin (25 # 576))
  /\ (CGLS.__r__ s3, CGLS.__p__ s3, CGLS.__gamma__ s3)
     = (Fin (-1 # 4), Fin (5 # 32), Fin (25 # 256))
  /\ n_Ax (snd r) = n_Ax m2 + 3
  /\ n_Atb (snd r) = n_Atb m2 + 2.
Proof. vm_compute. repeat split. Qed.

(** C2: the code at a first divergence.  With the backprojector scaled by
    3 the history is 2, 8: iteration 1 is the first to see the residual
    grow.  No restart was performed before (the adjoint was called once,
    by iteration 0, and the mark still has its initial value 0), yet the
    run returns there and reports two consecutive reinitialisations. *)
Theorem cgls_exit_on_first_trigger :
  let r := CGLS.run_main_iter Ax (Runs.Atb 3) timer (Runs.start 3 2 true) in
  fst r = Val (Some (Fin 9))
  /\ CGLS.l2l (self (snd r)) = [Fin 2; Fin 8]
  /\ CGLS.re_init_at_iteration (self (snd r)) = 0
  /\ n_Ax (snd r) = 4
  /\ n_Atb (snd r) = 1
  /\ stdout (snd r) =
     [EstimateTime 0; EstimateTime 1;
      Print "re-initilization of CGLS called at iteration:1";
      Print "Algorithm exited with two consecutive reinitializations."].
Proof. vm_compute. repeat split. Qed.

(** C3 fails on the code.  In the run with the backprojector scaled by
    5/4 and five iterations requested, iteration 2 restarts and iteration 3
    sees the residual grow again, so the run returns at iteration 3.  The
    solution before the step of iteration 3 is 5/6; the value returned is
    35/24, the solution after that step.  The history has five slots, as
    many as iterations requested. *)
Lemma cgls_early_exit_counterexample :
  let m3 := Runs.after (5 # 4) 5 false 3 in
  let r := CGLS.run_main_iter Ax Atb timer (Runs.start (5 # 4) 5 false) in
  CGLS.re_init_at_iteration (self m3) = 2
  /\ CGLS.iteration Ax Atb timer 3 m3 = (Val (Some (Fin (35 # 24))), snd r)
  /\ fst r = Val (Some (Fin (35 # 24)))
  /\ CGLS.res (self m3) = Fin (5 # 6)
  /\ Fin (35 # 24) <> CGLS.res (self m3)
  /\ ~ length (CGLS.l2l (self (snd r))) < CGLS.niter (self (snd r)).
Proof.
  vm_compute. repeat split; try discriminate. intros H.
  repeat (apply le_S_n in H). inversion H.
Qed.

(** C4 fails on the code.  With a projector that maps everything to zero
    the first step size is 1/0: after the step update [res] is infinite.
    No array holds a NaN at that point, and iteration 0 runs to its end. *)
Lemma cgls_inf_not_detected :
  let m := Runs.after_null 2 0 in
  let m1 := snd (CGLS.take_step Runs.Ax_null timer 0 m) in
  CGLS.res (self m1) = PInf
  /\ xisinf (CGLS.res (self m1)) = true
  /\ fst (CGLS.iteration Runs.Ax_null Runs.Atb_id timer 0 m) = Val None.
Proof. vm_compute. repeat split. Qed.

(** The next iteration of that run, for the amended C4.  After its step
    four arrays hold a NaN: [res], [__r__], [__p__] and [l2l].  The
    dictionary has [res] before the others, and the message names it. *)
Lemma cgls_abort_witness :
  let m := Runs.after_null 2 1 in
  let m1 := snd (CGLS.take_step Runs.Ax_null timer 1 m) in
  CGLS.ndarrays (self m1)
  = [("proj", false); ("res", true); ("__r__", true); ("__p__", true);
     ("l2l", true)]%string
  /\ snd (CGLS.iteration Runs.Ax_null Runs.Atb_id timer 1 m) = m1
  /\ exists item before after,
       CGLS.ndarrays (self m1) = before ++ (item, true) :: after
       /\ Forall (fun e => snd e = false) before
       /\ "nan found for res at iteraton 1"%string
          = ("nan found for " ++ item ++ " at iteraton " ++ str 1)%string.
Proof.
  cbv zeta. split; [reflexivity|].
  apply (proj2 (proj2 (cgls_abort_iff_nan_array Runs.Ax_null Runs.Atb_id timer 1
                         (Runs.after_null 2 1)))).
  reflexivity.
Defined.

(** C7 fails on the code.  The restarting iteration 2 of the run with the
    backprojector scaled by 5/4 calls the forward operator three times
    and the adjoint twice. *)
Lemma cgls_restart_calls_counterexample :
  let m2 := Runs.after (5 # 4) 5 false 2 in
  let r := CGLS.iteration Ax Atb timer 2 m2 in
  fst r = Val None
  /\ CGLS.re_init_at_iteration (self (snd r)) = 2
  /\ n_Ax (snd r) = n_Ax m2 + 3
  /\ n_Atb (snd r) = n_Atb m2 + 2
  /\ ~ (n_Ax (snd r) <= n_Ax m2 + 2 /\ n_Atb (snd r) <= n_Atb m2 + 1).
Proof.
  vm_compute. repeat split. intros [H _].
  repeat (apply le_S_n in H). inversion H.
Qed.

(** A verbose run of zero iterations, for C9. *)
Lemma cgls_verbose_zero_iterations_witness :
  fst (CGLS.run_main_iter Ax Atb timer (Runs.start (5 # 4) 0 true))
  = Exc ZeroDivisionError
  /\ avgtime (snd (CGLS.run_main_iter Ax Atb timer (Runs.start (5 # 4) 0 true)))
     = [].
Proof.
  apply (cgls_verbose_zero_iterations_raises Ax Atb timer
           (Runs.start (5 # 4) 0 true)); reflexivity.
Defined.
End CGLSRuns.

Section LSMRRuns.
Import Exact.

Lemma lsmr_one_iteration :
  let one := self (Bidiagonal.finished 1) in
  LSMR.l2l one = [Surd (25744 # 28561)]
  /\ Bidiagonal.true_residual_norm one = Surd (25744 # 28561).
Proof. vm_compute. by split. Qed.

Lemma lsmr_two_iterations :
  let two := self (Bidiagonal.finished 2) in
  LSMR.res two = [Rat (51534003 # 163968025); Rat (-15876 # 194045); Rat 0]
  /\ LSMR.l2l two =
     [Surd (25744 # 28561);
      Surd (1087441718949934609 # 511082852152546921)]
  /\ Bidiagonal.true_residual_norm two
     = Surd (42081981571072 # 1075420528896025)
  /\ LSMR.__betadd__ two = Rat 1
  /\ n_Ax (Bidiagonal.finished 2) = 2.
Proof. vm_compute. by repeat split. Qed.

(** C5: the code on a well-conditioned operator.  After one iteration the
    history value is the residual norm.  After two iterations the history
    holds the root of 1087441718949934609/511082852152546921 (about 1.46)
    and the residual norm of the solution is the root of
    42081981571072/1075420528896025 (about 0.198): two different real
    numbers.  The forward operator was called twice, once per iteration,
    and [betadd] still holds its initial 1. *)
Theorem lsmr_estimate_differs_from_residual :
  let one := self (Bidiagonal.finished 1) in
  let two := self (Bidiagonal.finished 2) in
  LSMR.l2l one = [Surd (25744 # 28561)]
  /\ Bidiagonal.true_residual_norm one = Surd (25744 # 28561)
  /\ LSMR.res two = [Rat (51534003 # 163968025); Rat (-15876 # 194045); Rat 0]
  /\ LSMR.l2l two =
     [Surd (25744 # 28561);
      Surd (1087441718949934609 # 511082852152546921)]
  /\ Bidiagonal.true_residual_norm two
     = Surd (42081981571072 # 1075420528896025)
  /\ LSMR.l2l two !! 1 <> Some (Bidiagonal.true_residual_norm two)
  /\ (forall e, LSMR.l2l two !! 1 = Some e ->
      real e <> real (Bidiagonal.true_residual_norm two))
  /\ LSMR.__betadd__ two = Rat 1
  /\ n_Ax (Bidiagonal.finished 2) = 2.
Proof.
  destruct lsmr_one_iteration as [H1 T1].
  destruct lsmr_two_iterations as (R2 & H2 & T2 & B2 & N2).
  cbv zeta in *. rewrite H1, T1, R2, H2, T2, B2, N2.
  repeat split.
  - discriminate.
  - intros e [= <-]. apply real_surd_neq.
    + vm_compute. discriminate.
    + vm_compute. discriminate.
    + intros H. vm_compute in H. discriminate H.
Qed.

(** C6 fails on the code: [rhod] starts at 1, not at 0. *)
Lemma lsmr_rhod_not_zero :
  LSMR.__rhod__ (LSMR.__init__ Bidiagonal.Ax Bidiagonal.Atb (Bidiagonal.setup 2))
  <> fzero.
Proof. vm_compute. discriminate. Qed.

(** Runs of zero iterations of the three solvers, for C8. *)
Lemma zero_iterations_witness :
  let b := Bidiagonal.setup 0 in
  let Ax := Bidiagonal.Ax in
  let Atb := Bidiagonal.Atb in
  let timer := Bidiagonal.timer in
  CGLS.res (self (snd (CGLS.run_main_iter Ax Atb timer
                         (boot (CGLS.__init__ Ax Atb b))))) = init_res b
  /\ LSQR.res (self (snd (LSQR.run_main_iter Ax Atb timer
                            (boot (LSQR.__init__ Ax Atb b))))) = init_res b
  /\ LSMR.res (self (snd (LSMR.run_main_iter Ax Atb timer
                            (boot (LSMR.__init__ Ax Atb b))))) = init_res b.
Proof.
  apply (zero_iterations_keep_initial_guess Bidiagonal.Ax Bidiagonal.Atb
           Bidiagonal.timer (Bidiagonal.setup 0)).
  reflexivity.
Defined.
End LSMRRuns.

(** * Further properties *)

(** ** Whole runs of the three solvers *)

Section LoopInvariants.
Context {St R : Type} (body : nat -> M St (option R)).

(** An invariant indexed by the iteration about to run.  [P i] holds
    before iteration [i]; an iteration that runs to its end establishes
    [P (S i)], one that returns or raises establishes [Q] of its
    outcome.  The loop then ends in [P] of the end of the range or in
    [Q]. *)
Lemma for_range_seq_inv (P : nat -> St -> Prop)
    (Q : outcome (option R) -> St -> Prop) (n : nat) :
  forall a : nat,
  (forall i m, a <= i < a + n -> P i m ->
     match fst (body i m) with
     | Val None => P (S i) (snd (body i m))
     | o => Q o (snd (body i m))
     end) ->
  forall m, P a m ->
    match fst (for_range body (seq a n) m) with
    | Val None => P (a + n) (snd (for_range body (seq a n) m))
    | o => Q o (snd (for_range body (seq a n) m))
    end.
Proof.
  induction n as [|n IH]; intros a Hstep m Hm; cbn [seq for_range].
  - cbn. by rewrite Nat.add_0_r.
  - unfold bind.
    pose proof (Hstep a m ltac:(lia) Hm) as Ha.
    destruct (body a m) as [[[v|]|e] m1]; cbn [fst snd] in *; try assumption.
    replace (a + S n) with (S a + n) by lia.
    apply IH; [|assumption].
    intros i m2 Hi. apply Hstep. lia.
Qed.
End LoopInvariants.

Section CGLSRunFacts.
Context {F Img Dat : Type}.
Context {FF : Float F} {NI : NDArray F Img} {ND : NDArray F Dat}.
Variable Ax : Img -> Dat.
Variable Atb : Dat -> Img.
Variable timer : nat -> F.
Local Abbreviation mach := (machine F Img (@CGLS.state F Img Dat)).

(** Splits an outcome equation of [CGLS.iteration] into the seven paths
    through the body. *)
Ltac cgls_paths E :=
  unfold CGLS.iteration in E; unfold bind at 1 in E; rewrite take_step_eq in E;
  cbv beta iota in E; unfold bind at 1 in E; rewrite nan_scan_eq in E;
  match type of E with context [List.find ?f ?l] =>
    destruct (List.find f l) as [[? ?]|] eqn:?
  end;
  [ | unfold bind at 1 in E; rewrite record_residual_eq in E; cbv zeta in E;
      cbn [self CGLS.set_res CGLS.l2l] in E;
      destruct (decide _) as [?|?];
      [ unfold bind at 1 in E; rewrite divergence_check_eq in E; cbv zeta in E;
        cbn [self avgtime n_Ax n_Atb n_timer stdout CGLS.set_l2l CGLS.l2l
             CGLS.verbose CGLS.re_init_at_iteration CGLS.res CGLS.proj
             CGLS.__p__] in E;
        destruct (_ !! _) as [?|] eqn:? in E;
        [ destruct (if 0 <? _ then _ else _) as [[|]|] eqn:? in E;
          [ destruct (_ =? _) eqn:? in E;
            [ | unfold bind at 1 in E; rewrite direction_update_eq in E ]
          | unfold bind at 1 in E; rewrite direction_update_eq in E
          | ]
        | ]
      | ] ].

(** [run_main_iter] in terms of its loop. *)
Lemma cgls_run_main_iter_eq (m : mach) :
  CGLS.run_main_iter Ax Atb timer m =
  match for_range (CGLS.iteration Ax Atb timer) (seq 0 (CGLS.niter (self m)))
          (Machine (CGLS.set_l2l (replicate (CGLS.niter (self m)) fzero) (self m))
             [] (n_Ax m) (n_Atb m) (n_timer m) (stdout m)) with
  | (Val (Some x), m1) => (Val (Some x), m1)
  | (Val None, m1) =>
      if CGLS.verbose (self m1) then
        if length (avgtime m1) =? 0 then (Exc ZeroDivisionError, m1)
        else (Val None,
              Machine (self m1) (avgtime m1) (n_Ax m1) (n_Atb m1) (n_timer m1)
                (stdout m1 ++
                 [PrintAvgTime (fdiv (py_sum (avgtime m1))
                                     (of_nat (length (avgtime m1))))]))
      else (Val None, m1)
  | (Exc e, m1) => (Exc e, m1)
  end.
Proof.
  unfold CGLS.run_main_iter. unfold bind at 1. rewrite allocate_eq.
  unfold bind at 1, get_self at 1. cbn [self CGLS.set_l2l CGLS.niter].
  unfold bind at 1.
  destruct (for_range _ _ _) as [[[v|]|e] m1]; try reflexivity.
  unfold bind at 1, get_self at 1, bind at 1, when, CGLS.print_average.
  destruct (CGLS.verbose (self m1)); [|reflexivity].
  unfold bind at 1, get_avgtime at 1.
  destruct (length (avgtime m1) =? 0); reflexivity.
Qed.

(** What no iteration touches, and what every iteration does whatever
    its outcome: two reads of the clock, one more entry in [avgtime], and
    no store into the history except at its own index. *)
Lemma cgls_iteration_frame i (m : mach) :
  let m' := snd (CGLS.iteration Ax Atb timer i m) in
  CGLS.proj (self m') = CGLS.proj (self m)
  /\ CGLS.niter (self m') = CGLS.niter (self m)
  /\ CGLS.verbose (self m') = CGLS.verbose (self m)
  /\ CGLS.Quameasopts (self m') = CGLS.Quameasopts (self m)
  /\ CGLS.base_dict (self m') = CGLS.base_dict (self m)
  /\ length (CGLS.l2l (self m')) = length (CGLS.l2l (self m))
  /\ (forall j, j <> i -> CGLS.l2l (self m') !! j = CGLS.l2l (self m) !! j)
  /\ n_timer m' = n_timer m + 2
  /\ avgtime m' =
     avgtime m ++ [fabs (fsub (timer (n_timer m)) (timer (S (n_timer m))))].
Proof.
  destruct (CGLS.iteration Ax Atb timer i m) as [out m'] eqn:E. cbn [snd].
  cgls_paths E; injection E as <- <-; cbn;
    repeat split; try lia; try reflexivity;
    rewrite ?length_insert; try reflexivity;
    intros j Hj; by rewrite list_lookup_insert_ne.
Qed.

(** The outcomes of an iteration whose index is inside the history. *)
Lemma cgls_iteration_outcome i (m : mach) :
  i < length (CGLS.l2l (self m)) ->
  let m' := snd (CGLS.iteration Ax Atb timer i m) in
  let mark := CGLS.re_init_at_iteration (self m) in
  let mark' := CGLS.re_init_at_iteration (self m') in
  match fst (CGLS.iteration Ax Atb timer i m) with
  | Val None =>
      (mark' = mark /\ n_Ax m' = n_Ax m + 2 /\ n_Atb m' = n_Atb m + 1)
      \/ (mark' = i /\ 0 < i /\ mark + 1 <> i
          /\ n_Ax m' = n_Ax m + 3 /\ n_Atb m' = n_Atb m + 2)
  | Val (Some x) =>
      0 < i /\ mark + 1 = i /\ mark' = mark
      /\ n_Ax m' = n_Ax m + 2 /\ n_Atb m' = n_Atb m
      /\ CGLS.res (self m') = x
      /\ CGLS.l2l (self m') !! i
         = Some (f32 (norm (vsub (CGLS.proj (self m)) (Ax x))))
  | Exc (ValueError _) =>
      mark' = mark /\ n_Ax m' = n_Ax m + 1 /\ n_Atb m' = n_Atb m
  | Exc _ => False
  end.
Proof.
  intros Hi.
  destruct (CGLS.iteration Ax Atb timer i m) as [out m'] eqn:E.
  cbn [fst snd]. cbv zeta.
  cgls_paths E; injection E as <- <-; cbn.
  all: repeat match goal with
       | H : (_ =? _) = true |- _ => cbn in H; apply Nat.eqb_eq in H
       | H : (_ =? _) = false |- _ => cbn in H; apply Nat.eqb_neq in H
       | H : (if 0 <? ?k then _ else _) = _ |- _ =>
           destruct (0 <? k) eqn:Hpos;
           [apply Nat.ltb_lt in Hpos; apply fmap_Some in H || apply fmap_None in H
           |try discriminate H]
       | H : _ !! _ = None |- _ =>
           apply lookup_ge_None in H; rewrite length_insert in H
       | H : ~ _ < length _ |- _ => cbn in H
       end.
  all: try lia.
  repeat split; try lia. apply list_lookup_insert_eq. assumption.
Qed.

(** The duration recorded by the iteration that reads the clock for the
    [t]-th and [t+1]-st time. *)
Local Abbreviation lap t := (fabs (fsub (timer t) (timer (S t)))).

(** What holds of the machine [m1] during and after a loop started on
    [m0], in terms of the number of iterations begun (the length of
    [avgtime]). *)
Local Abbreviation cgls_common m0 m1 :=
  (CGLS.proj (self m1) = CGLS.proj (self m0)
   /\ CGLS.niter (self m1) = CGLS.niter (self m0)
   /\ CGLS.verbose (self m1) = CGLS.verbose (self m0)
   /\ CGLS.Quameasopts (self m1) = CGLS.Quameasopts (self m0)
   /\ CGLS.base_dict (self m1) = CGLS.base_dict (self m0)
   /\ length (CGLS.l2l (self m1)) = length (CGLS.l2l (self m0))
   /\ n_timer m1 = n_timer m0 + 2 * length (avgtime m1)
   /\ avgtime m1
      = map (fun k => lap (n_timer m0 + 2 * k)) (seq 0 (length (avgtime m1)))
   /\ (forall j, length (avgtime m1) <= j < length (CGLS.l2l (self m0)) ->
         CGLS.l2l (self m1) !! j = Some fzero)).

Lemma cgls_loop_inv (m0 : mach) :
  avgtime m0 = [] ->
  CGLS.l2l (self m0) = replicate (length (CGLS.l2l (self m0))) fzero ->
  let N := length (CGLS.l2l (self m0)) in
  let r := for_range (CGLS.iteration Ax Atb timer) (seq 0 N) m0 in
  let k := length (avgtime (snd r)) in
  cgls_common m0 (snd r)
  /\ match fst r with
     | Val None =>
         k = N
         /\ n_Ax m0 + 2 * N <= n_Ax (snd r) <= n_Ax m0 + 3 * N
         /\ n_Atb m0 + N <= n_Atb (snd r) <= n_Atb m0 + 2 * N
     | Val (Some x) =>
         2 <= k <= N
         /\ CGLS.res (self (snd r)) = x
         /\ CGLS.l2l (self (snd r)) !! (k - 1)
            = Some (f32 (norm (vsub (CGLS.proj (self m0)) (Ax x))))
         /\ n_Ax m0 + 2 * k <= n_Ax (snd r) <= n_Ax m0 + 3 * k
         /\ n_Atb m0 + k <= n_Atb (snd r) + 1 <= n_Atb m0 + 2 * k
     | Exc (ValueError _) =>
         1 <= k <= N
         /\ n_Ax m0 + 2 * k <= n_Ax (snd r) + 1 <= n_Ax m0 + 3 * k
         /\ n_Atb m0 + k <= n_Atb (snd r) + 1 <= n_Atb m0 + 2 * k
     | Exc _ => False
     end.
Proof.
  intros Hts Hzero N r k. subst k r.
  pose proof (for_range_seq_inv (CGLS.iteration Ax Atb timer)
    (fun i m1 =>
       cgls_common m0 m1 /\ length (avgtime m1) = i
       /\ n_Ax m0 + 2 * i <= n_Ax m1 <= n_Ax m0 + 3 * i
       /\ n_Atb m0 + i <= n_Atb m1 <= n_Atb m0 + 2 * i)
    (fun o m1 =>
       cgls_common m0 m1
       /\ let k := length (avgtime m1) in
          match o with
          | Val None => False
          | Val (Some x) =>
              2 <= k <= N
              /\ CGLS.res (self m1) = x
              /\ CGLS.l2l (self m1) !! (k - 1)
                 = Some (f32 (norm (vsub (CGLS.proj (self m0)) (Ax x))))
              /\ n_Ax m0 + 2 * k <= n_Ax m1 <= n_Ax m0 + 3 * k
              /\ n_Atb m0 + k <= n_Atb m1 + 1 <= n_Atb m0 + 2 * k
          | Exc (ValueError _) =>
              1 <= k <= N
              /\ n_Ax m0 + 2 * k <= n_Ax m1 + 1 <= n_Ax m0 + 3 * k
              /\ n_Atb m0 + k <= n_Atb m1 + 1 <= n_Atb m0 + 2 * k
          | Exc _ => False
          end)
    N 0) as Hinv.
  cbv beta zeta in Hinv.
  lapply Hinv; clear Hinv.
  - intros Hinv. lapply (Hinv m0); clear Hinv.
    + destruct (for_range _ _ m0) as [[[x|]|[msg| |]] m1]; cbn [fst snd];
        tauto.
    + rewrite Hts. cbn [length seq map]. repeat split; try lia.
      intros j Hj. rewrite Hzero. apply lookup_replicate_2. lia.
  - intros i m1 [_ Hi] (Hc & Hk & Hax & Hatb).
    destruct Hc as (Hproj & Hn & Hv & Hq & Ho & Hlen & Ht & Hav & Htail).
    pose proof (cgls_iteration_frame i m1) as Hf.
    pose proof (cgls_iteration_outcome i m1 ltac:(lia)) as Hout.
    cbv zeta in Hf, Hout.
    destruct (CGLS.iteration Ax Atb timer i m1) as [o m2]. cbn [fst snd] in *.
    destruct Hf as (Fproj & Fn & Fv & Fq & Fo & Flen & Fl2l & Ft & Fav).
    assert (Hk2 : length (avgtime m2) = S i).
    { rewrite Fav, length_app. cbn. lia. }
    assert (Hc2 : cgls_common m0 m2).
    { rewrite Hk2. repeat split; try congruence; try lia.
      - rewrite Fav, seq_S, map_app, Hav, Hk, Ht, Hk. reflexivity.
      - intros j Hj. rewrite Fl2l by lia. apply Htail. lia. }
    destruct o as [[x|]|[msg| |]]; cbv beta iota; try tauto.
    + destruct Hout as (Hpos & _ & _ & Oax & Oatb & Ores & Ohist).
      split; [exact Hc2|]. rewrite Hk2.
      replace (S i - 1) with i by lia. rewrite <- Hproj.
      repeat split; try assumption; lia.
    + split; [exact Hc2|]. split; [exact Hk2|]. lia.
    + split; [exact Hc2|]. rewrite Hk2. lia.
Qed.

(** The same for [run_main_iter], which allocates the history and the
    list [avgtime] before the loop and prints the average after it. *)
Lemma cgls_run_inv (m : mach) :
  let r := CGLS.run_main_iter Ax Atb timer m in
  let N := CGLS.niter (self m) in
  let k := length (avgtime (snd r)) in
  (CGLS.proj (self (snd r)) = CGLS.proj (self m)
   /\ CGLS.niter (self (snd r)) = N
   /\ CGLS.verbose (self (snd r)) = CGLS.verbose (self m)
   /\ CGLS.Quameasopts (self (snd r)) = CGLS.Quameasopts (self m)
   /\ CGLS.base_dict (self (snd r)) = CGLS.base_dict (self m))
  /\ length (CGLS.l2l (self (snd r))) = N
  /\ n_timer (snd r) = n_timer m + 2 * k
  /\ avgtime (snd r) = map (fun j => lap (n_timer m + 2 * j)) (seq 0 k)
  /\ (forall j, k <= j < N -> CGLS.l2l (self (snd r)) !! j = Some fzero)
  /\ match fst r with
     | Val None =>
         k = N /\ (CGLS.verbose (self m) = true -> 0 < N)
         /\ n_Ax m + 2 * N <= n_Ax (snd r) <= n_Ax m + 3 * N
         /\ n_Atb m + N <= n_Atb (snd r) <= n_Atb m + 2 * N
     | Val (Some x) =>
         2 <= k <= N
         /\ CGLS.res (self (snd r)) = x
         /\ CGLS.l2l (self (snd r)) !! (k - 1)
            = Some (f32 (norm (vsub (CGLS.proj (self m)) (Ax x))))
         /\ n_Ax m + 2 * k <= n_Ax (snd r) <= n_Ax m + 3 * k
         /\ n_Atb m + k <= n_Atb (snd r) + 1 <= n_Atb m + 2 * k
     | Exc (ValueError _) =>
         1 <= k <= N
         /\ n_Ax m + 2 * k <= n_Ax (snd r) + 1 <= n_Ax m + 3 * k
         /\ n_Atb m + k <= n_Atb (snd r) + 1 <= n_Atb m + 2 * k
     | Exc ZeroDivisionError =>
         CGLS.verbose (self m) = true /\ N = 0 /\ k = 0
         /\ n_Ax (snd r) = n_Ax m /\ n_Atb (snd r) = n_Atb m
     | Exc IndexError => False
     end.
Proof.
  cbv zeta. rewrite cgls_run_main_iter_eq.
  set (m0 := Machine _ [] _ _ _ _).
  pose proof (cgls_loop_inv m0 eq_refl) as H.
  cbn [m0 self CGLS.l2l CGLS.set_l2l] in H. rewrite length_replicate in H.
  specialize (H eq_refl). cbv zeta in H. fold m0 in H.
  destruct (for_range _ _ m0) as [[[x|]|e] m1]; cbn [fst snd] in H.
  - cbn [fst snd]. cbn [m0 self n_timer n_Ax n_Atb CGLS.set_l2l CGLS.proj
      CGLS.niter CGLS.verbose CGLS.Quameasopts CGLS.base_dict CGLS.l2l] in H. tauto.
  - cbn [m0 self n_timer n_Ax n_Atb CGLS.set_l2l CGLS.proj
      CGLS.niter CGLS.verbose CGLS.Quameasopts CGLS.base_dict CGLS.l2l] in H.
    destruct H as ((Hp & Hn & Hv & Hq & Ho & Hlen & Ht & Hav & Htail) & Hk & Hax & Hatb).
    destruct (CGLS.verbose (self m1)) eqn:Ev1; cbn [fst snd].
    + destruct (length (avgtime m1) =? 0) eqn:Ek; cbn [fst snd self avgtime n_timer n_Ax n_Atb].
      * apply Nat.eqb_eq in Ek. repeat split; try assumption; try lia; congruence.
      * apply Nat.eqb_neq in Ek. repeat split; try assumption; try lia; congruence.
    + repeat split; try assumption; try lia; try congruence.
  - cbn [fst snd]. cbn [m0 self n_timer n_Ax n_Atb CGLS.set_l2l CGLS.proj
      CGLS.niter CGLS.verbose CGLS.Quameasopts CGLS.base_dict CGLS.l2l] in H.
    destruct e as [msg| |]; tauto.
Qed.

(** A loop over the first [n] iterations that runs to its end: [n]
    iterations were begun and the history slots from [n] on are
    untouched. *)
Lemma cgls_prefix_inv (m0 m1 : mach) (n : nat) :
  avgtime m0 = [] ->
  CGLS.l2l (self m0) = replicate (length (CGLS.l2l (self m0))) fzero ->
  n <= length (CGLS.l2l (self m0)) ->
  for_range (CGLS.iteration Ax Atb timer) (seq 0 n) m0 = (Val None, m1) ->
  length (avgtime m1) = n
  /\ length (CGLS.l2l (self m1)) = length (CGLS.l2l (self m0))
  /\ (forall j, n <= j < length (CGLS.l2l (self m0)) ->
        CGLS.l2l (self m1) !! j = Some fzero).
Proof.
  intros Hts Hzero Hn Hloop.
  pose proof (for_range_seq_inv (CGLS.iteration Ax Atb timer)
    (fun i m2 =>
       length (avgtime m2) = i
       /\ length (CGLS.l2l (self m2)) = length (CGLS.l2l (self m0))
       /\ (forall j, i <= j < length (CGLS.l2l (self m0)) ->
             CGLS.l2l (self m2) !! j = Some fzero))
    (fun _ _ => True) n 0) as Hinv.
  cbv beta in Hinv. lapply Hinv; clear Hinv.
  - intros Hinv. lapply (Hinv m0); clear Hinv.
    + rewrite Hloop. cbn [fst snd]. tauto.
    + rewrite Hts. repeat split.
      intros j Hj. rewrite Hzero. apply lookup_replicate_2. lia.
  - intros i m2 [_ Hi] (Hk & Hlen & Htail).
    pose proof (cgls_iteration_frame i m2)
      as (_ & _ & _ & _ & _ & Flen & Fl2l & _ & Fav).
    destruct (CGLS.iteration Ax Atb timer i m2) as [[[x|]|e] m3];
      cbn [fst snd] in *; try exact I.
    repeat split.
    + rewrite Fav, length_app. cbn. lia.
    + congruence.
    + intros j Hj. rewrite Fl2l by lia. apply Htail. lia.
Qed.

Local Abbreviation step_size s :=
  (fdiv (CGLS.__gamma__ s)
        (fmul (norm (Ax (CGLS.__p__ s))) (norm (Ax (CGLS.__p__ s))))).

(** C3, as amended.  When [run_main_iter] leaves through its early
    [return] at iteration [i], the value returned is the solution held by
    the object, it is the solution right after the step
    [res += alpha * p] of that iteration (the step is not undone on that
    path), the history buffer still has one slot per requested iteration,
    and the slots after [i] hold the zeros of the allocation. *)
Theorem cgls_early_exit_returns_stepped_solution (m m' : mach) (x : Img) :
  CGLS.run_main_iter Ax Atb timer m = (Val (Some x), m') ->
  CGLS.res (self m') = x
  /\ length (CGLS.l2l (self m')) = CGLS.niter (self m)
  /\ exists i m_i,
       i < CGLS.niter (self m)
       /\ for_range (CGLS.iteration Ax Atb timer) (seq 0 i)
            (snd (CGLS.allocate m)) = (Val None, m_i)
       /\ CGLS.iteration Ax Atb timer i m_i = (Val (Some x), m')
       /\ CGLS.re_init_at_iteration (self m_i) + 1 = i
       /\ x = vadd (CGLS.res (self m_i))
                (vscale (step_size (self m_i)) (CGLS.__p__ (self m_i)))
       /\ (forall j, i < j < CGLS.niter (self m) ->
             CGLS.l2l (self m') !! j = Some fzero).
Proof.
  intros Hrun.
  pose proof (run_main_iter_history_length Ax Atb timer m) as Hlen.
  rewrite Hrun in Hlen.
  apply run_main_iter_returned in Hrun.
  apply for_range_returned in Hrun as (i & m_i & Hi & Hpre & Hat).
  rewrite Nat.sub_0_r in Hpre.
  destruct (iteration_returned _ _ _ _ _ _ _ Hat) as (Hx & Hres & Hmark).
  split; [assumption|]. split; [assumption|].
  exists i, m_i. repeat split; try assumption; try lia.
  intros j Hj.
  rewrite allocate_eq in Hpre. cbn [snd] in Hpre.
  match type of Hpre with for_range _ _ ?m0 = _ =>
    destruct (cgls_prefix_inv m0 m_i i eq_refl) as (_ & _ & Htail);
      [cbn; by rewrite length_replicate
      |cbn; rewrite length_replicate; lia
      |exact Hpre|]
  end.
  cbn [self CGLS.set_l2l CGLS.l2l] in Htail. rewrite length_replicate in Htail.
  pose proof (cgls_iteration_frame i m_i) as (_ & _ & _ & _ & _ & _ & Fl2l & _).
  rewrite Hat in Fl2l. cbn [snd] in Fl2l.
  rewrite Fl2l by lia. apply Htail. lia.
Qed.

Lemma cgls_iteration_silent i (m : mach) :
  CGLS.verbose (self m) = false ->
  CGLS.Quameasopts (self m) = false ->
  stdout (snd (CGLS.iteration Ax Atb timer i m)) = stdout m.
Proof.
  intros Hv Hq.
  destruct (CGLS.iteration Ax Atb timer i m) as [out m'] eqn:E. cbn [snd].
  rewrite <- (app_nil_r (stdout m)).
  cgls_paths E; injection E as <- <-; cbn; rewrite ?Hv, ?Hq, ?app_nil_r;
    reflexivity.
Qed.

Lemma cgls_loop_silent idx (m : mach) :
  CGLS.verbose (self m) = false ->
  CGLS.Quameasopts (self m) = false ->
  stdout (snd (for_range (CGLS.iteration Ax Atb timer) idx m)) = stdout m.
Proof.
  intros Hv Hq.
  apply (for_range_preserves (CGLS.iteration Ax Atb timer)
           (fun m1 : mach =>
              CGLS.verbose (self m1) = false
              /\ CGLS.Quameasopts (self m1) = false
              /\ stdout m1 = stdout m)); [|tauto].
  intros i m1 (Hv1 & Hq1 & Ho).
  pose proof (cgls_iteration_frame i m1) as (_ & _ & Fv & Fq & _).
  rewrite Fv, Fq, cgls_iteration_silent by assumption. tauto.
Qed.

(** The restart mark of a loop started with the mark at 0: a restart at
    iteration [i] needs [0 < i] and [mark + 1 <> i], so the first one comes
    at iteration 2 at the earliest. *)
Lemma cgls_loop_mark (m0 : mach) :
  CGLS.re_init_at_iteration (self m0) = 0 ->
  let N := length (CGLS.l2l (self m0)) in
  let m' := snd (for_range (CGLS.iteration Ax Atb timer) (seq 0 N) m0) in
  CGLS.re_init_at_iteration (self m') = 0
  \/ 2 <= CGLS.re_init_at_iteration (self m') < N.
Proof.
  intros Hmark N m'. subst m'.
  pose proof (for_range_seq_inv (CGLS.iteration Ax Atb timer)
    (fun i m1 =>
       length (CGLS.l2l (self m1)) = N /\ i <= N
       /\ (CGLS.re_init_at_iteration (self m1) = 0
           \/ 2 <= CGLS.re_init_at_iteration (self m1) < i))
    (fun _ m1 =>
       CGLS.re_init_at_iteration (self m1) = 0
       \/ 2 <= CGLS.re_init_at_iteration (self m1) < N)
    N 0) as Hinv.
  cbv beta in Hinv. lapply Hinv; clear Hinv.
  - intros Hinv. lapply (Hinv m0); clear Hinv.
    + destruct (for_range _ _ m0) as [[[x|]|e] m1]; cbn [fst snd]; lia.
    + lia.
  - intros i m1 [_ Hi] (Hlen & _ & Hm).
    pose proof (cgls_iteration_frame i m1) as (_ & _ & _ & _ & _ & Flen & _).
    pose proof (cgls_iteration_outcome i m1 ltac:(lia)) as Hout.
    cbv zeta in Hout.
    destruct (CGLS.iteration Ax Atb timer i m1) as [[[x|]|[msg| |]] m2];
      cbn [fst snd] in *; lia.
Qed.

(** X1.  How [CGLS.run_main_iter] can end.  It never reads or writes the
    history outside its bounds.  The only exceptions are the [ValueError]
    of the NaN scan, which needs an iteration, and the [ZeroDivisionError]
    of the printed average, which needs a verbose run of zero iterations;
    an early [return] needs two iterations, and a verbose run that ends
    normally has run an iteration. *)
Theorem cgls_run_outcomes (m : mach) :
  match fst (CGLS.run_main_iter Ax Atb timer m) with
  | Val None => CGLS.verbose (self m) = false \/ 0 < CGLS.niter (self m)
  | Val (Some _) => 2 <= CGLS.niter (self m)
  | Exc (ValueError _) => 1 <= CGLS.niter (self m)
  | Exc ZeroDivisionError =>
      CGLS.verbose (self m) = true /\ CGLS.niter (self m) = 0
  | Exc IndexError => False
  end.
Proof.
  pose proof (cgls_run_inv m) as (_ & _ & _ & _ & _ & H). cbv zeta in H.
  destruct (fst (CGLS.run_main_iter Ax Atb timer m)) as [[x|]|[msg| |]];
    try tauto; try lia.
  destruct H as (_ & H & _). destruct (CGLS.verbose (self m)); [right|left]; auto.
Qed.

(** X2.  The history after [CGLS.run_main_iter], however it ends, with
    [k] the number of iterations begun (the length of [avgtime]): it has
    one slot per requested iteration, and the slots from [k] on still hold
    the zeros of the allocation.  After an early [return] at least two
    iterations were begun and slot [k - 1] holds the [float32] residual
    norm [||proj - Ax(x)||] of the solution [x] returned. *)
Theorem cgls_history_after_run (m : mach) :
  let r := CGLS.run_main_iter Ax Atb timer m in
  let k := length (avgtime (snd r)) in
  length (CGLS.l2l (self (snd r))) = CGLS.niter (self m)
  /\ drop k (CGLS.l2l (self (snd r))) = replicate (CGLS.niter (self m) - k) fzero
  /\ match fst r with
     | Val (Some x) =>
         2 <= k
         /\ CGLS.l2l (self (snd r)) !! (k - 1)
            = Some (f32 (norm (vsub (CGLS.proj (self m)) (Ax x))))
     | _ => True
     end.
Proof.
  pose proof (cgls_run_inv m) as (_ & Hlen & _ & _ & Htail & H).
  cbv zeta in *. split; [exact Hlen|]. split.
  - apply list_eq. intros j. rewrite lookup_drop.
    destruct (decide (j < CGLS.niter (self m)
                          - length (avgtime (snd (CGLS.run_main_iter Ax Atb timer m)))))
      as [Hj|Hj].
    + rewrite Htail by lia. symmetry. by apply lookup_replicate_2.
    + rewrite lookup_ge_None_2 by lia.
      symmetry. apply lookup_ge_None_2. rewrite length_replicate. lia.
  - destruct (fst (CGLS.run_main_iter Ax Atb timer m)) as [[x|]|e]; tauto.
Qed.

(** X3.  The clock in [CGLS.run_main_iter].  The list [avgtime] is
    emptied at the start; every iteration begun reads the clock twice and
    appends the absolute difference of the two reads, also when it then
    raises or returns.  A run that ends normally has one entry per
    requested iteration. *)
Theorem cgls_timing (m : mach) :
  let r := CGLS.run_main_iter Ax Atb timer m in
  let k := length (avgtime (snd r)) in
  n_timer (snd r) = n_timer m + 2 * k
  /\ avgtime (snd r)
     = map (fun j => fabs (fsub (timer (n_timer m + 2 * j))
                                (timer (S (n_timer m + 2 * j))))) (seq 0 k)
  /\ match fst r with
     | Val None => k = CGLS.niter (self m)
     | Exc ZeroDivisionError => k = 0
     | _ => 1 <= k <= CGLS.niter (self m)
     end.
Proof.
  pose proof (cgls_run_inv m) as (_ & _ & Ht & Hav & _ & H).
  cbv zeta in *. split; [exact Ht|]. split; [exact Hav|].
  destruct (fst (CGLS.run_main_iter Ax Atb timer m)) as [[x|]|[msg| |]];
    try tauto; lia.
Qed.

(** X4.  The cost of [CGLS.run_main_iter] in operator calls.  A run that
    ends normally calls the forward operator between two and three times
    per iteration and the adjoint between once and twice; a run that
    raises in the printed average made no call.  With [k] iterations
    begun, a run that returns early made between [2k] and [3k] forward
    calls and one that raises in the NaN scan one less; both made
    between [k - 1] and [2k - 1] adjoint calls. *)
Theorem cgls_run_operator_calls (m : mach) :
  let r := CGLS.run_main_iter Ax Atb timer m in
  let N := CGLS.niter (self m) in
  let k := length (avgtime (snd r)) in
  match fst r with
  | Val None =>
      n_Ax m + 2 * N <= n_Ax (snd r) <= n_Ax m + 3 * N
      /\ n_Atb m + N <= n_Atb (snd r) <= n_Atb m + 2 * N
  | Val (Some _) =>
      n_Ax m + 2 * k <= n_Ax (snd r) <= n_Ax m + 3 * k
      /\ n_Atb m + k <= n_Atb (snd r) + 1 <= n_Atb m + 2 * k
  | Exc (ValueError _) =>
      n_Ax m + 2 * k <= n_Ax (snd r) + 1 <= n_Ax m + 3 * k
      /\ n_Atb m + k <= n_Atb (snd r) + 1 <= n_Atb m + 2 * k
  | Exc _ => n_Ax (snd r) = n_Ax m /\ n_Atb (snd r) = n_Atb m
  end.
Proof.
  pose proof (cgls_run_inv m) as (_ & _ & _ & _ & _ & H). cbv zeta in *.
  destruct (fst (CGLS.run_main_iter Ax Atb timer m)) as [[x|]|[msg| |]];
    tauto.
Qed.

(** X5.  The restart mark of a freshly constructed CGLS solver after
    [run_main_iter]: it is still 0 or the index of an iteration from 2 on.
    The mark starts at 0, so a residual increase at iteration 1 meets
    [re_init_at_iteration + 1 == i] and leaves the function; iteration 1
    never restarts. *)
Theorem cgls_restart_mark_range (b : IterativeReconAlg F Img Dat) :
  let m' := snd (CGLS.run_main_iter Ax Atb timer (boot (CGLS.__init__ Ax Atb b))) in
  CGLS.re_init_at_iteration (self m') = 0
  \/ 2 <= CGLS.re_init_at_iteration (self m') < init_niter b.
Proof.
  cbv zeta. rewrite cgls_run_main_iter_eq.
  set (m0 := Machine _ [] _ _ _ _).
  pose proof (cgls_loop_mark m0 eq_refl) as H.
  cbn [m0 self CGLS.l2l CGLS.set_l2l] in H. rewrite length_replicate in H.
  cbv zeta in H. fold m0 in H.
  change (CGLS.niter (CGLS.__init__ Ax Atb b)) with (init_niter b) in H.
  change (CGLS.niter (self (boot (CGLS.__init__ Ax Atb b)))) with (init_niter b).
  destruct (for_range _ _ m0) as [[[x|]|e] m1]; cbn [fst snd] in *; try exact H.
  destruct (CGLS.verbose (self m1)); [|exact H].
  destruct (length (avgtime m1) =? 0); exact H.
Qed.

(** X6.  [CGLS.run_main_iter] prints nothing and calls no hook of the base
    class when the solver is neither verbose nor configured for quality
    measurement. *)
Theorem cgls_silent_run (m : mach) :
  CGLS.verbose (self m) = false ->
  CGLS.Quameasopts (self m) = false ->
  stdout (snd (CGLS.run_main_iter Ax Atb timer m)) = stdout m.
Proof.
  intros Hv Hq. rewrite cgls_run_main_iter_eq.
  set (m0 := Machine _ [] _ _ _ _).
  pose proof (cgls_loop_silent (seq 0 (CGLS.niter (self m))) m0 Hv Hq) as H.
  pose proof (for_range_preserves (CGLS.iteration Ax Atb timer)
    (fun m1 : mach => CGLS.verbose (self m1) = false)
    (fun i m1 H1 => eq_trans (proj1 (proj2 (proj2 (cgls_iteration_frame i m1)))) H1)
    (seq 0 (CGLS.niter (self m))) m0 Hv) as Hv'.
  cbv beta in Hv'.
  destruct (for_range _ _ m0) as [[[x|]|e] m1]; cbn [fst snd] in *; try exact H.
  rewrite Hv'. exact H.
Qed.

(** X7.  [reinitialise_cgls] recomputes what the constructor computes,
    for the current solution: on a freshly constructed object it changes
    no attribute, and calling it a second time changes nothing more.  It
    calls each operator once and leaves the solution, the history and the
    restart mark alone. *)
Theorem cgls_reinitialise_recomputes (b : IterativeReconAlg F Img Dat) (m : mach) :
  let m1 := snd (CGLS.reinitialise_cgls Ax Atb m) in
  self (snd (CGLS.reinitialise_cgls Ax Atb (boot (CGLS.__init__ Ax Atb b))))
  = CGLS.__init__ Ax Atb b
  /\ self (snd (CGLS.reinitialise_cgls Ax Atb m1)) = self m1
  /\ CGLS.__r__ (self m1) = vsub (CGLS.proj (self m)) (Ax (CGLS.res (self m)))
  /\ CGLS.__p__ (self m1) = Atb (CGLS.__r__ (self m1))
  /\ CGLS.__gamma__ (self m1)
     = fmul (norm (CGLS.__p__ (self m1))) (norm (CGLS.__p__ (self m1)))
  /\ CGLS.res (self m1) = CGLS.res (self m)
  /\ CGLS.l2l (self m1) = CGLS.l2l (self m)
  /\ CGLS.re_init_at_iteration (self m1) = CGLS.re_init_at_iteration (self m)
  /\ n_Ax m1 = S (n_Ax m) /\ n_Atb m1 = S (n_Atb m)
  /\ fst (CGLS.reinitialise_cgls Ax Atb m) = Val tt.
Proof. cbv zeta. rewrite !reinitialise_cgls_eq. cbn. repeat split. Qed.
End CGLSRunFacts.

Section BidiagonalizationRuns.
Context {F Img Dat : Type}.
Context {FF : Float F} {SF : Sqrt F} {NI : NDArray F Img} {ND : NDArray F Dat}.
Variable Ax : Img -> Dat.
Variable Atb : Dat -> Img.
Variable timer : nat -> F.
Local Abbreviation lsqr := (machine F Img (@LSQR.state F Img Dat)).
Local Abbreviation lsmr := (machine F Img (@LSMR.state F Img Dat)).
Local Abbreviation lap t := (fabs (fsub (timer t) (timer (S t)))).

(** The events of [i] iterations that call no quality measurement. *)
Local Abbreviation estimates v i :=
  (if v : bool then map (@EstimateTime F Img) (seq 0 i) else []).

Lemma estimates_S (v : bool) i :
  estimates v i ++ (if v then [EstimateTime i] else []) = estimates v (S i).
Proof. destruct v; [|reflexivity]. by rewrite seq_S, map_app. Qed.

Lemma lsqr_run_main_iter_eq (m : lsqr) :
  LSQR.run_main_iter Ax Atb timer m =
  for_range (LSQR.iteration Ax Atb timer) (seq 0 (LSQR.niter (self m)))
    (Machine (LSQR.set_l2l (replicate (LSQR.niter (self m)) fzero) (self m))
       [] (n_Ax m) (n_Atb m) (n_timer m) (stdout m)).
Proof. reflexivity. Qed.

Lemma lsmr_run_main_iter_eq (m : lsmr) :
  LSMR.run_main_iter Ax Atb timer m =
  for_range (LSMR.iteration Ax Atb timer) (seq 0 (LSMR.niter (self m)))
    (Machine (LSMR.set_l2l (replicate (LSMR.niter (self m)) fzero) (self m))
       [] (n_Ax m) (n_Atb m) (n_timer m) (stdout m)).
Proof. reflexivity. Qed.

Lemma lsqr_loop_inv (m0 : lsqr) (n : nat) :
  let r := for_range (LSQR.iteration Ax Atb timer) (seq 0 n) m0 in
  fst r = Val None
  /\ (LSQR.proj (self (snd r)) = LSQR.proj (self m0)
      /\ LSQR.niter (self (snd r)) = LSQR.niter (self m0)
      /\ LSQR.verbose (self (snd r)) = LSQR.verbose (self m0)
      /\ LSQR.Quameasopts (self (snd r)) = LSQR.Quameasopts (self m0)
      /\ LSQR.re_init_at_iteration (self (snd r))
         = LSQR.re_init_at_iteration (self m0))
  /\ LSQR.l2l (self (snd r)) = LSQR.l2l (self m0)
  /\ n_Ax (snd r) = n_Ax m0 + n
  /\ n_Atb (snd r) = n_Atb m0 + n
  /\ n_timer (snd r) = n_timer m0 + 2 * n
  /\ avgtime (snd r)
     = avgtime m0 ++ map (fun j => lap (n_timer m0 + 2 * j)) (seq 0 n)
  /\ (LSQR.Quameasopts (self m0) = false ->
      stdout (snd r) = stdout m0 ++ estimates (LSQR.verbose (self m0)) n).
Proof.
  cbv zeta.
  pose proof (for_range_seq_inv (LSQR.iteration Ax Atb timer)
    (fun i m1 =>
       (LSQR.proj (self m1) = LSQR.proj (self m0)
        /\ LSQR.niter (self m1) = LSQR.niter (self m0)
        /\ LSQR.verbose (self m1) = LSQR.verbose (self m0)
        /\ LSQR.Quameasopts (self m1) = LSQR.Quameasopts (self m0)
        /\ LSQR.re_init_at_iteration (self m1)
           = LSQR.re_init_at_iteration (self m0))
       /\ LSQR.l2l (self m1) = LSQR.l2l (self m0)
       /\ n_Ax m1 = n_Ax m0 + i
       /\ n_Atb m1 = n_Atb m0 + i
       /\ n_timer m1 = n_timer m0 + 2 * i
       /\ avgtime m1
          = avgtime m0 ++ map (fun j => lap (n_timer m0 + 2 * j)) (seq 0 i)
       /\ (LSQR.Quameasopts (self m0) = false ->
           stdout m1 = stdout m0 ++ estimates (LSQR.verbose (self m0)) i))
    (fun _ _ => False) n 0) as Hinv.
  cbv beta in Hinv. lapply Hinv; clear Hinv.
  - intros Hinv. lapply (Hinv m0); clear Hinv.
    + destruct (for_range _ _ m0) as [[[x|]|e] m1]; cbn [fst snd]; tauto.
    + cbn [seq map]. rewrite !app_nil_r, !Nat.add_0_r.
      repeat split. intros _.
      destruct (LSQR.verbose (self m0)); cbn; by rewrite app_nil_r.
  - intros i m1 _ ((Hp & Hn & Hv & Hq & Hm) & Hl & Hax & Hatb & Ht & Hav & Hout).
    rewrite lsqr_iteration_eq. cbv zeta.
    destruct (bidiag_step _ _ _ _ _) as [[[u beta] v] alpha].
    cbn [fst snd self avgtime n_Ax n_Atb n_timer stdout].
    repeat split; try lia; try assumption.
    + rewrite seq_S, map_app, app_assoc, <- Hav, Ht. reflexivity.
    + intros Hq0. rewrite Hq, Hq0, app_nil_r, Hout, Hv, <- app_assoc by exact Hq0.
      by rewrite estimates_S.
Qed.

Lemma lsmr_loop_inv (m0 : lsmr) (n : nat) :
  n <= length (LSMR.l2l (self m0)) ->
  let r := for_range (LSMR.iteration Ax Atb timer) (seq 0 n) m0 in
  fst r = Val None
  /\ (LSMR.proj (self (snd r)) = LSMR.proj (self m0)
      /\ LSMR.niter (self (snd r)) = LSMR.niter (self m0)
      /\ LSMR.verbose (self (snd r)) = LSMR.verbose (self m0)
      /\ LSMR.Quameasopts (self (snd r)) = LSMR.Quameasopts (self m0)
      /\ LSMR.lmbda (self (snd r)) = LSMR.lmbda (self m0)
      /\ LSMR.re_init_at_iteration (self (snd r))
         = LSMR.re_init_at_iteration (self m0))
  /\ length (LSMR.l2l (self (snd r))) = length (LSMR.l2l (self m0))
  /\ drop n (LSMR.l2l (self (snd r))) = drop n (LSMR.l2l (self m0))
  /\ n_Ax (snd r) = n_Ax m0 + n
  /\ n_Atb (snd r) = n_Atb m0 + n
  /\ n_timer (snd r) = n_timer m0 + 2 * n
  /\ avgtime (snd r)
     = avgtime m0 ++ map (fun j => lap (n_timer m0 + 2 * j)) (seq 0 n)
  /\ (LSMR.Quameasopts (self m0) = false ->
      stdout (snd r) = stdout m0 ++ estimates (LSMR.verbose (self m0)) n).
Proof.
  intros Hn. cbv zeta.
  pose proof (for_range_seq_inv (LSMR.iteration Ax Atb timer)
    (fun i m1 =>
       (LSMR.proj (self m1) = LSMR.proj (self m0)
        /\ LSMR.niter (self m1) = LSMR.niter (self m0)
        /\ LSMR.verbose (self m1) = LSMR.verbose (self m0)
        /\ LSMR.Quameasopts (self m1) = LSMR.Quameasopts (self m0)
        /\ LSMR.lmbda (self m1) = LSMR.lmbda (self m0)
        /\ LSMR.re_init_at_iteration (self m1)
           = LSMR.re_init_at_iteration (self m0))
       /\ length (LSMR.l2l (self m1)) = length (LSMR.l2l (self m0))
       /\ drop i (LSMR.l2l (self m1)) = drop i (LSMR.l2l (self m0))
       /\ n_Ax m1 = n_Ax m0 + i
       /\ n_Atb m1 = n_Atb m0 + i
       /\ n_timer m1 = n_timer m0 + 2 * i
       /\ avgtime m1
          = avgtime m0 ++ map (fun j => lap (n_timer m0 + 2 * j)) (seq 0 i)
       /\ (LSMR.Quameasopts (self m0) = false ->
           stdout m1 = stdout m0 ++ estimates (LSMR.verbose (self m0)) i))
    (fun _ _ => False) n 0) as Hinv.
  cbv beta in Hinv. lapply Hinv; clear Hinv.
  - intros Hinv. lapply (Hinv m0); clear Hinv.
    + destruct (for_range _ _ m0) as [[[x|]|e] m1]; cbn [fst snd]; tauto.
    + cbn [seq map]. rewrite !app_nil_r, !Nat.add_0_r.
      repeat split. intros _.
      destruct (LSMR.verbose (self m0)); cbn; by rewrite app_nil_r.
  - intros i m1 [_ Hi]
      ((Hp & Hnn & Hv & Hq & Hlam & Hm) & Hl & Hd & Hax & Hatb & Ht & Hav & Hout).
    rewrite lsmr_iteration_eq. cbv zeta.
    destruct (bidiag_step _ _ _ _ _) as [[[u beta] v] alpha].
    destruct (decide (i < length (LSMR.l2l (self m1)))) as [Hlt|Hge]; [|lia].
    cbn [fst snd self avgtime n_Ax n_Atb n_timer stdout].
    split; [by repeat split|].
    split; [cbn; rewrite length_insert; exact Hl|].
    split.
    { cbn [LSMR.set_l2l LSMR.l2l].
      rewrite drop_insert_lt by lia.
      replace (S i) with (i + 1) by lia.
      change (LSMR.l2l (fst (LSMR.rotations (self m1) u beta v alpha)))
        with (LSMR.l2l (self m1)).
      by rewrite <- !drop_drop, Hd. }
    repeat split; try lia.
    + rewrite seq_S, map_app, app_assoc, <- Hav, Ht. reflexivity.
    + intros Hq0. rewrite Hq, Hq0, app_nil_r, Hout, Hv, <- app_assoc by exact Hq0.
      by rewrite estimates_S.
Qed.

(** LSQR and LSMR loops started on objects with the same [u], [beta], [v]
    and [alpha] keep them the same. *)
Lemma bidiagonalization_lockstep (n : nat) :
  forall (a : nat) (m1 : lsqr) (m2 : lsmr),
  LSQR.__u__ (self m1) = LSMR.__u__ (self m2) ->
  LSQR.__beta__ (self m1) = LSMR.__beta__ (self m2) ->
  LSQR.__v__ (self m1) = LSMR.__v__ (self m2) ->
  LSQR.__alpha__ (self m1) = LSMR.__alpha__ (self m2) ->
  a + n <= length (LSMR.l2l (self m2)) ->
  let s1 := self (snd (for_range (LSQR.iteration Ax Atb timer) (seq a n) m1)) in
  let s2 := self (snd (for_range (LSMR.iteration Ax Atb timer) (seq a n) m2)) in
  LSQR.__u__ s1 = LSMR.__u__ s2
  /\ LSQR.__beta__ s1 = LSMR.__beta__ s2
  /\ LSQR.__v__ s1 = LSMR.__v__ s2
  /\ LSQR.__alpha__ s1 = LSMR.__alpha__ s2.
Proof.
  induction n as [|n IH]; intros a m1 m2 Hu Hb Hv Ha Hlen; cbv zeta;
    cbn [seq for_range].
  - cbn. tauto.
  - unfold bind. rewrite lsqr_iteration_eq, lsmr_iteration_eq. cbv zeta.
    rewrite <- Hu, <- Hv, <- Ha.
    destruct (bidiag_step _ _ _ _ _) as [[[u beta] v] alpha].
    destruct (decide (a < length (LSMR.l2l (self m2)))) as [Hlt|Hge]; [|lia].
    apply IH; try reflexivity.
    cbn [self LSMR.set_l2l LSMR.l2l]. rewrite length_insert. lia.
Qed.

(** X8.  [LSQR.run_main_iter] always runs to its end: it raises nothing
    and has no early exit.  It calls each operator once per requested
    iteration and reads the clock twice; [avgtime] holds one duration per
    iteration.  The history [l2l] is allocated and never written: it
    holds zeros when the function ends. *)
Theorem lsqr_run (m : lsqr) :
  let r := LSQR.run_main_iter Ax Atb timer m in
  let N := LSQR.niter (self m) in
  fst r = Val None
  /\ LSQR.l2l (self (snd r)) = replicate N fzero
  /\ n_Ax (snd r) = n_Ax m + N
  /\ n_Atb (snd r) = n_Atb m + N
  /\ n_timer (snd r) = n_timer m + 2 * N
  /\ avgtime (snd r)
     = map (fun j => fabs (fsub (timer (n_timer m + 2 * j))
                                (timer (S (n_timer m + 2 * j))))) (seq 0 N).
Proof.
  cbv zeta. rewrite lsqr_run_main_iter_eq.
  set (m0 := Machine _ [] _ _ _ _).
  pose proof (lsqr_loop_inv m0 (LSQR.niter (self m)))
    as (Hval & _ & Hl & Hax & Hatb & Ht & Hav & _).
  repeat split; assumption.
Qed.

(** X9.  [LSMR.run_main_iter] always runs to its end: every store into
    the history is within its bounds, nothing is raised and there is no
    early exit.  It calls each operator once per requested iteration and
    reads the clock twice; the history has one slot per requested
    iteration and [avgtime] one duration. *)
Theorem lsmr_run (m : lsmr) :
  let r := LSMR.run_main_iter Ax Atb timer m in
  let N := LSMR.niter (self m) in
  fst r = Val None
  /\ length (LSMR.l2l (self (snd r))) = N
  /\ n_Ax (snd r) = n_Ax m + N
  /\ n_Atb (snd r) = n_Atb m + N
  /\ n_timer (snd r) = n_timer m + 2 * N
  /\ avgtime (snd r)
     = map (fun j => fabs (fsub (timer (n_timer m + 2 * j))
                                (timer (S (n_timer m + 2 * j))))) (seq 0 N).
Proof.
  cbv zeta. rewrite lsmr_run_main_iter_eq.
  set (m0 := Machine _ [] _ _ _ _).
  assert (Hlen : LSMR.niter (self m) <= length (LSMR.l2l (self m0))).
  { cbn. by rewrite length_replicate. }
  pose proof (lsmr_loop_inv m0 (LSMR.niter (self m)) Hlen)
    as (Hval & _ & Hl & _ & Hax & Hatb & Ht & Hav & _).
  repeat split; try assumption.
  rewrite Hl. cbn. apply length_replicate.
Qed.

(** X10.  What LSQR and LSMR send out when no quality measurement is
    configured: a verbose run calls [_estimate_time_until_completion]
    once per iteration, in order, and a run that is not verbose nothing.
    Neither solver prints the average of [avgtime]. *)
Theorem lsqr_lsmr_event_log :
  (forall m : lsqr,
     LSQR.Quameasopts (self m) = false ->
     stdout (snd (LSQR.run_main_iter Ax Atb timer m))
     = stdout m ++ if LSQR.verbose (self m)
                   then map EstimateTime (seq 0 (LSQR.niter (self m))) else [])
  /\ (forall m : lsmr,
     LSMR.Quameasopts (self m) = false ->
     stdout (snd (LSMR.run_main_iter Ax Atb timer m))
     = stdout m ++ if LSMR.verbose (self m)
                   then map EstimateTime (seq 0 (LSMR.niter (self m))) else []).
Proof.
  split; intros m Hq.
  - rewrite lsqr_run_main_iter_eq.
    set (m0 := Machine _ [] _ _ _ _).
    pose proof (lsqr_loop_inv m0 (LSQR.niter (self m)))
      as (_ & _ & _ & _ & _ & _ & _ & Hout).
    apply Hout. exact Hq.
  - rewrite lsmr_run_main_iter_eq.
    set (m0 := Machine _ [] _ _ _ _).
    assert (Hlen : LSMR.niter (self m) <= length (LSMR.l2l (self m0))).
    { cbn. by rewrite length_replicate. }
    pose proof (lsmr_loop_inv m0 (LSMR.niter (self m)) Hlen)
      as (_ & _ & _ & _ & _ & _ & _ & _ & Hout).
    apply Hout. exact Hq.
Qed.

(** X11.  No [run_main_iter] changes what the constructor received
    besides the solution: the data [proj], the iteration count, the flags
    [verbose] and [Quameasopts], and the damping [lmbda] of LSMR are the
    same after the run, however it ends.  LSQR and LSMR never touch
    [re_init_at_iteration], which only CGLS uses. *)
Theorem run_main_iter_keeps_inputs :
  (forall m : machine F Img (@CGLS.state F Img Dat),
     let s' := self (snd (CGLS.run_main_iter Ax Atb timer m)) in
     CGLS.proj s' = CGLS.proj (self m)
     /\ CGLS.niter s' = CGLS.niter (self m)
     /\ CGLS.verbose s' = CGLS.verbose (self m)
     /\ CGLS.Quameasopts s' = CGLS.Quameasopts (self m)
     /\ CGLS.base_dict s' = CGLS.base_dict (self m))
  /\ (forall m : lsqr,
     let s' := self (snd (LSQR.run_main_iter Ax Atb timer m)) in
     LSQR.proj s' = LSQR.proj (self m)
     /\ LSQR.niter s' = LSQR.niter (self m)
     /\ LSQR.verbose s' = LSQR.verbose (self m)
     /\ LSQR.Quameasopts s' = LSQR.Quameasopts (self m)
     /\ LSQR.re_init_at_iteration s' = LSQR.re_init_at_iteration (self m))
  /\ (forall m : lsmr,
     let s' := self (snd (LSMR.run_main_iter Ax Atb timer m)) in
     LSMR.proj s' = LSMR.proj (self m)
     /\ LSMR.niter s' = LSMR.niter (self m)
     /\ LSMR.verbose s' = LSMR.verbose (self m)
     /\ LSMR.Quameasopts s' = LSMR.Quameasopts (self m)
     /\ LSMR.lmbda s' = LSMR.lmbda (self m)
     /\ LSMR.re_init_at_iteration s' = LSMR.re_init_at_iteration (self m)).
Proof.
  split; [|split]; intros m; cbv zeta.
  - pose proof (cgls_run_inv Ax Atb timer m) as (H & _). exact H.
  - rewrite lsqr_run_main_iter_eq.
    set (m0 := Machine _ [] _ _ _ _).
    pose proof (lsqr_loop_inv m0 (LSQR.niter (self m))) as (_ & H & _).
    exact H.
  - rewrite lsmr_run_main_iter_eq.
    set (m0 := Machine _ [] _ _ _ _).
    assert (Hlen : LSMR.niter (self m) <= length (LSMR.l2l (self m0))).
    { cbn. by rewrite length_replicate. }
    pose proof (lsmr_loop_inv m0 (LSMR.niter (self m)) Hlen) as (_ & H & _).
    exact H.
Qed.

(** X12.  LSQR and LSMR build the same bidiagonalization.  Constructed
    from the same data, initial guess and iteration count, the two
    solvers hold the same [u], [beta], [v] and [alpha] after
    [run_main_iter]; the damping [lmbda] of LSMR has no part in them. *)
Theorem lsqr_lsmr_same_bidiagonalization (b : IterativeReconAlg F Img Dat) :
  let q := self (snd (LSQR.run_main_iter Ax Atb timer
                        (boot (LSQR.__init__ Ax Atb b)))) in
  let l := self (snd (LSMR.run_main_iter Ax Atb timer
                        (boot (LSMR.__init__ Ax Atb b)))) in
  LSQR.__u__ q = LSMR.__u__ l
  /\ LSQR.__beta__ q = LSMR.__beta__ l
  /\ LSQR.__v__ q = LSMR.__v__ l
  /\ LSQR.__alpha__ q = LSMR.__alpha__ l.
Proof.
  cbv zeta. rewrite lsqr_run_main_iter_eq, lsmr_run_main_iter_eq.
  apply bidiagonalization_lockstep; try reflexivity.
  cbn. by rewrite length_replicate.
Qed.
End BidiagonalizationRuns.

(** ** Runs started on a solution, and a one-cell system *)

Section ExactStart.
Import XQ.
Variable Ax : xq -> xq.
Variable Atb : xq -> xq.
Variable timer : nat -> xq.

Lemma xsub_self (q : Q) : xsub (Fin q) (Fin q) = Fin 0.
Proof.
  unfold xsub, xneg, xadd. f_equal.
  change 0%Q with (Qred 0). apply Qred_complete.
  rewrite Qred_correct. apply Qplus_opp_r.
Qed.

Lemma xmul_nan_r (a : xq) : xmul a NaN = NaN.
Proof. by destruct a. Qed.

Lemma xadd_nan_r (a : xq) : xadd a NaN = NaN.
Proof. by destruct a. Qed.

Lemma xsub_nan_r (a : xq) : xsub a NaN = NaN.
Proof. by destruct a. Qed.

Lemma existsb_replicate_zero (n : nat) :
  existsb xisnan (replicate n (Fin 0)) = false.
Proof. induction n; [reflexivity|exact IHn]. Qed.

(** The solver constructed on a solution [x0] of the system: the data is
    the finite number [q] and [Ax x0] is [q]. *)
Local Abbreviation consistent q x0 n v qm d :=
  {| init_proj := Fin q; init_res := x0; init_niter := n;
     init_verbose := v; init_Quameasopts := qm; init_lmbda := Fin 0;
     init_dict := d |}.

Lemma cgls_init_consistent q x0 n v qm d :
  Ax x0 = Fin q -> Atb (Fin 0) = Fin 0 ->
  CGLS.__init__ Ax Atb (consistent q x0 n v qm d)
  = CGLS.State (Fin q) x0 n v qm d 0 (Fin 0) (Fin 0) (Fin 0) [].
Proof.
  intros HAx HAtb. unfold CGLS.__init__. cbn [init_proj init_res init_niter
    init_verbose init_Quameasopts init_dict vsub norm xq_cell].
  rewrite HAx, xsub_self, HAtb. reflexivity.
Qed.

(** A name is tainted when the solution turns NaN if it is bound to the
    solution, or to an array that held a NaN before. *)
Local Abbreviation tainted :=
  (fun e : string * binding =>
     match snd e with
     | BRes | BArray true => true
     | _ => false
     end).

(** The scan of an object on which exactly the tainted names hold a
    NaN finds the first tainted name of the dictionary. *)
Lemma find_scanned (s : @CGLS.state xq xq xq) (D : list (string * binding)) :
  (forall k b, CGLS.nan_in s b = tainted (k, b)) ->
  List.find snd (omap (CGLS.scanned s) D)
  = match List.find tainted D with
    | Some (item, _) => Some (item, true)
    | None => None
    end.
Proof.
  intros Hs. induction D as [|[k b] D IH]; [reflexivity|].
  cbn [omap list_omap List.find]. unfold CGLS.scanned at 1. cbn [fst snd].
  pose proof (Hs k b) as Hb. cbn [snd] in Hb.
  destruct b as [| | | | |[|]|]; cbn [List.find snd];
    rewrite ?Hb; cbn [snd]; try exact IH; try reflexivity.
Qed.

(** X13.  CGLS started on a solution of the system.  The constructor
    finds a zero residual, so the search direction and [gamma] are zero
    and the first step size is [0/0]: the step makes the solution NaN
    and the NaN scan of iteration 0 raises.  The message names the first
    name of the dictionary that is bound to the solution array, or to an
    array that held a NaN already: [res] itself, or a name the base class
    stored before it for the same array. *)
Theorem cgls_consistent_start_raises (q : Q) (x0 : xq) (n : nat) (v qm : bool)
    (d : list (string * binding)) :
  Ax x0 = Fin q ->
  Ax (Fin 0) = Fin 0 ->
  Atb (Fin 0) = Fin 0 ->
  let r := CGLS.run_main_iter Ax Atb timer
             (boot (CGLS.__init__ Ax Atb (consistent q x0 (S n) v qm d))) in
  match List.find tainted (CGLS.scan_dict d) with
  | Some (item, _) =>
      fst r = Exc (ValueError ("nan found for " ++ item ++ " at iteraton 0"))
  | None => False
  end
  /\ CGLS.res (self (snd r)) = NaN
  /\ n_Ax (snd r) = 1 /\ n_Atb (snd r) = 0.
Proof.
  intros HAx HAx0 HAtb0. cbv zeta.
  rewrite cgls_init_consistent by assumption.
  destruct (CGLS.run_main_iter Ax Atb timer _) as [o m'] eqn:E. cbn [fst snd].
  rewrite cgls_run_main_iter_eq in E.
  cbn [boot self CGLS.niter seq for_range] in E. unfold bind at 1 in E.
  unfold CGLS.iteration in E. unfold bind at 1 in E. rewrite take_step_eq in E.
  cbv beta iota in E. unfold bind at 1 in E. rewrite nan_scan_eq in E.
  cbn [self CGLS.set_res CGLS.set_l2l CGLS.proj CGLS.res
       CGLS.__p__ CGLS.__gamma__ CGLS.__r__ CGLS.l2l CGLS.base_dict
       vadd vscale norm xq_cell] in E.
  rewrite HAx0 in E.
  assert (Hnan : forall x,
    xadd x (xmul (fdiv (Fin 0) (fmul (xabs (Fin 0)) (xabs (Fin 0)))) (Fin 0)) = NaN)
    by (intros []; reflexivity).
  rewrite !Hnan in E.
  unfold CGLS.ndarrays in E. cbn [CGLS.base_dict] in E.
  rewrite find_scanned in E.
  2: { intros k b. destruct b as [| | | | |[|]|]; cbn; try reflexivity.
       apply existsb_replicate_zero. }
  cbn [CGLS.base_dict CGLS.set_res CGLS.set_l2l] in E.
  destruct (List.find tainted (CGLS.scan_dict d)) as [[item b]|] eqn:Hfind.
  - injection E as <- <-. cbn. repeat split.
  - exfalso.
    destruct (scan_dict_own d) as (Hres & _).
    apply (find_none _ _ Hfind) in Hres. discriminate Hres.
Qed.
End ExactStart.

Section ExactStartBidiagonalization.
Import XQ.
Context (SF : Sqrt xq).
Variable Ax : xq -> xq.
Variable Atb : xq -> xq.
Variable timer : nat -> xq.

Local Abbreviation consistent q x0 n v qm lam :=
  {| init_proj := Fin q; init_res := x0; init_niter := n;
     init_verbose := v; init_Quameasopts := qm; init_lmbda := lam;
     init_dict := [] |}.

Lemma lsqr_loop_nan (n : nat) (m0 : machine xq xq (@LSQR.state xq xq xq)) :
  LSQR.__w__ (self m0) = NaN ->
  let m' := snd (for_range (LSQR.iteration Ax Atb timer) (seq 0 n) m0) in
  LSQR.__w__ (self m') = NaN /\ (0 < n -> LSQR.res (self m') = NaN).
Proof.
  intros Hw. cbv zeta.
  pose proof (for_range_seq_inv (LSQR.iteration Ax Atb timer)
    (fun i m1 => LSQR.__w__ (self m1) = NaN /\ (0 < i -> LSQR.res (self m1) = NaN))
    (fun _ _ => False) n 0) as Hinv.
  cbv beta in Hinv. lapply Hinv; clear Hinv.
  - intros Hinv. lapply (Hinv m0); clear Hinv.
    + pose proof (lsqr_loop_inv Ax Atb timer m0 n) as (Hval & _).
      destruct (for_range _ _ m0) as [[[x|]|e] m1]; cbn [fst snd] in *;
        try discriminate Hval. tauto.
    + split; [exact Hw|lia].
  - intros i m1 _ [Hw1 _].
    rewrite lsqr_iteration_eq. cbv zeta.
    destruct (bidiag_step _ _ _ _ _) as [[[u beta] v] alpha].
    cbn [fst snd self]. unfold LSQR.rotation.
    cbn [LSQR.__w__ LSQR.res vadd vsub vscale xq_cell].
    rewrite Hw1, !xmul_nan_r, xadd_nan_r, xsub_nan_r. tauto.
Qed.

(** X14.  LSQR started on a solution of the system.  The constructor
    divides the zero residual by its norm 0, so [u] is NaN and so are
    [v], [alpha] and [w]; nothing tests for it.  [run_main_iter] runs all
    its iterations, raises nothing, and leaves a NaN solution. *)
Theorem lsqr_consistent_start_gives_nan (q : Q) (x0 : xq) (n : nat)
    (v qm : bool) :
  Ax x0 = Fin q ->
  Atb NaN = NaN ->
  let s0 := LSQR.__init__ Ax Atb (consistent q x0 (S n) v qm (Fin 0)) in
  let r := LSQR.run_main_iter Ax Atb timer (boot s0) in
  LSQR.__u__ s0 = NaN
  /\ fst r = Val None
  /\ LSQR.res (self (snd r)) = NaN
  /\ n_Ax (snd r) = S n.
Proof.
  intros HAx HAtb. cbv zeta.
  assert (Hinit : LSQR.__init__ Ax Atb (consistent q x0 (S n) v qm (Fin 0))
                  = LSQR.State (Fin q) x0 (S n) v qm 0 NaN (Fin 0) (Fin 0)
                      NaN NaN NaN NaN []).
  { unfold LSQR.__init__.
    cbn [init_proj init_res init_niter init_verbose init_Quameasopts
         vsub vdiv norm xq_cell].
    rewrite HAx, xsub_self.
    change (xdiv (Fin 0) (xabs (Fin 0))) with NaN. rewrite HAtb. reflexivity. }
  rewrite Hinit. split; [reflexivity|].
  rewrite lsqr_run_main_iter_eq. cbn [boot self LSQR.niter n_Ax n_Atb n_timer stdout].
  set (m0 := Machine _ [] _ _ _ _).
  pose proof (lsqr_loop_inv Ax Atb timer m0 (S n)) as (Hval & _ & _ & Hax & _).
  pose proof (lsqr_loop_nan (S n) m0 eq_refl) as (_ & Hres).
  split; [exact Hval|]. split; [apply Hres; lia|exact Hax].
Qed.

Lemma lsmr_loop_nan (n : nat) (m0 : machine xq xq (@LSMR.state xq xq xq)) :
  n <= length (LSMR.l2l (self m0)) ->
  LSMR.__h__ (self m0) = NaN ->
  let m' := snd (for_range (LSMR.iteration Ax Atb timer) (seq 0 n) m0) in
  LSMR.__h__ (self m') = NaN /\ (0 < n -> LSMR.res (self m') = NaN).
Proof.
  intros Hn Hh. cbv zeta.
  pose proof (for_range_seq_inv (LSMR.iteration Ax Atb timer)
    (fun i m1 => LSMR.__h__ (self m1) = NaN
                 /\ length (LSMR.l2l (self m1)) = length (LSMR.l2l (self m0))
                 /\ (0 < i -> LSMR.res (self m1) = NaN))
    (fun _ _ => False) n 0) as Hinv.
  cbv beta in Hinv. lapply Hinv; clear Hinv.
  - intros Hinv. lapply (Hinv m0); clear Hinv.
    + pose proof (lsmr_loop_inv Ax Atb timer m0 n Hn) as (Hval & _).
      destruct (for_range _ _ m0) as [[[x|]|e] m1]; cbn [fst snd] in *;
        try discriminate Hval. tauto.
    + split; [exact Hh|]. split; [reflexivity|lia].
  - intros i m1 [_ Hi] (Hh1 & Hlen & _).
    rewrite lsmr_iteration_eq. cbv zeta.
    destruct (bidiag_step _ _ _ _ _) as [[[u beta] v] alpha].
    destruct (decide (i < length (LSMR.l2l (self m1)))) as [Hlt|Hge]; [|lia].
    cbn [fst snd self]. unfold LSMR.rotations.
    cbn [fst snd LSMR.set_l2l LSMR.__h__ LSMR.res LSMR.l2l
         vadd vsub vscale xq_cell].
    rewrite Hh1, length_insert.
    destruct (LSMR.__hbar__ (self m1)) as [z|hb];
      cbn [LSMR.hbar_update vsubs vsub vscale xq_cell];
      rewrite !xmul_nan_r, xadd_nan_r, xsub_nan_r; tauto.
Qed.

(** X15.  LSMR started on a solution of the system, for any damping.
    As in LSQR the constructor divides the zero residual by its norm, and
    [u], [v], [alpha] and [h] are NaN.  [run_main_iter] runs all its
    iterations, raises nothing, and leaves a NaN solution. *)
Theorem lsmr_consistent_start_gives_nan (q : Q) (x0 lam : xq) (n : nat)
    (v qm : bool) :
  Ax x0 = Fin q ->
  Atb NaN = NaN ->
  let s0 := LSMR.__init__ Ax Atb (consistent q x0 (S n) v qm lam) in
  let r := LSMR.run_main_iter Ax Atb timer (boot s0) in
  LSMR.__u__ s0 = NaN
  /\ fst r = Val None
  /\ LSMR.res (self (snd r)) = NaN
  /\ n_Ax (snd r) = S n.
Proof.
  intros HAx HAtb. cbv zeta.
  assert (Hinit : LSMR.__init__ Ax Atb (consistent q x0 (S n) v qm lam)
                  = LSMR.State (Fin q) x0 (S n) v qm lam 0 NaN (Fin 0) NaN NaN
                      NaN NaN (Fin 1) (Fin 1) (Fin 1) (Fin 0) NaN (inl (Fin 0))
                      (Fin 0) (Fin 0) (Fin 1) (Fin 0) (Fin 0) (Fin 0) (Fin 0) []).
  { unfold LSMR.__init__.
    cbn [init_proj init_res init_niter init_verbose init_Quameasopts init_lmbda
         vsub vdiv norm xq_cell].
    rewrite HAx, xsub_self.
    change (xdiv (Fin 0) (xabs (Fin 0))) with NaN. rewrite HAtb. reflexivity. }
  rewrite Hinit. split; [reflexivity|].
  rewrite lsmr_run_main_iter_eq. cbn [boot self LSMR.niter n_Ax n_Atb n_timer stdout].
  set (m0 := Machine _ [] _ _ _ _).
  assert (Hlen : S n <= length (LSMR.l2l (self m0))).
  { cbn. by rewrite length_replicate. }
  pose proof (lsmr_loop_inv Ax Atb timer m0 (S n) Hlen)
    as (Hval & _ & _ & _ & Hax & _).
  pose proof (lsmr_loop_nan (S n) m0 Hlen eq_refl) as (_ & Hres).
  split; [exact Hval|]. split; [apply Hres; lia|exact Hax].
Qed.
End ExactStartBidiagonalization.

Section RationalCells.
Import XQ.
Local Open Scope Q_scope.

Lemma fin_red (x y : Q) : x == y -> Fin (Qred x) = Fin (Qred y).
Proof. intros H. f_equal. by apply Qred_complete. Qed.

Lemma fin_red0 (x : Q) : x == 0 -> Fin (Qred x) = Fin 0.
Proof. intros H. change (Fin 0) with (Fin (Qred 0)). by apply fin_red. Qed.

Lemma xdiv_fin (x y : Q) : ~ y == 0 -> xdiv (Fin x) (Fin y) = Fin (Qred (x / y)).
Proof.
  intros Hy. unfold xdiv, sign.
  destruct (Qnum y ?= 0)%Z eqn:E; try reflexivity.
  exfalso. apply Hy. apply Z.compare_eq in E. unfold Qeq. cbn. lia.
Qed.

Lemma Qabs_sq (x : Q) : Qabs x * Qabs x == x * x.
Proof. apply (Qabs_case x (fun y => y * y == x * x)); intros _; ring. Qed.

Lemma Qmult_nonzero (x y : Q) : ~ x == 0 -> ~ y == 0 -> ~ x * y == 0.
Proof. intros Hx Hy H. apply Qmult_integral in H. tauto. Qed.

Lemma Qred_nonzero (x : Q) : ~ x == 0 -> ~ Qred x == 0.
Proof. by rewrite Qred_correct. Qed.
End RationalCells.

Section FurtherRuns.
Import XQ XQRoot.

(** The run with the backprojector scaled by 5/4 and five iterations
    requested, for the amended C3: it returns at iteration 3 with the
    stepped solution 35/24, and its history has five slots. *)
Lemma cgls_early_exit_witness :
  let m := Runs.start (5 # 4) 5 false in
  let r := CGLS.run_main_iter Runs.Ax (Runs.Atb (5 # 4)) Runs.timer m in
  r = (Val (Some (Fin (35 # 24))), snd r)
  /\ CGLS.res (self (snd r)) = Fin (35 # 24)
  /\ length (CGLS.l2l (self (snd r))) = CGLS.niter (self m).
Proof.
  cbv zeta.
  assert (H : CGLS.run_main_iter Runs.Ax (Runs.Atb (5 # 4)) Runs.timer
                (Runs.start (5 # 4) 5 false)
              = (Val (Some (Fin (35 # 24))),
                 snd (CGLS.run_main_iter Runs.Ax (Runs.Atb (5 # 4)) Runs.timer
                        (Runs.start (5 # 4) 5 false))))
    by (vm_compute; reflexivity).
  split; [exact H|].
  destruct (cgls_early_exit_returns_stepped_solution
              Runs.Ax (Runs.Atb (5 # 4)) Runs.timer _ _ _ H)
    as (Hres & Hlen & _).
  split; assumption.
Defined.

(** A silent CGLS run, for X6: the run with the backprojector scaled by
    5/4, not verbose. *)
Lemma cgls_silent_run_witness :
  stdout (snd (CGLS.run_main_iter Runs.Ax (Runs.Atb (5 # 4)) Runs.timer
                 (Runs.start (5 # 4) 5 false)))
  = stdout (Runs.start (5 # 4) 5 false).
Proof.
  apply (cgls_silent_run Runs.Ax (Runs.Atb (5 # 4)) Runs.timer
           (Runs.start (5 # 4) 5 false)); reflexivity.
Defined.

(** CGLS with the identity as projector and backprojector, data 1,
    started on the solution 1, for X13.  The base class keeps the array
    of the initial guess under [init] and uses it as the solution: the
    message names [init], which is stored before [res]. *)
Lemma cgls_consistent_start_witness :
  let b := {| init_proj := Fin 1; init_res := Fin 1; init_niter := 1;
              init_verbose := false; init_Quameasopts := false;
              init_lmbda := Fin 0; init_dict := Runs.dict_init |} in
  let r := CGLS.run_main_iter Runs.Ax (Runs.Atb 1) Runs.timer
             (boot (CGLS.__init__ Runs.Ax (Runs.Atb 1) b)) in
  fst r = Exc (ValueError "nan found for init at iteraton 0")
  /\ CGLS.res (self (snd r)) = NaN
  /\ n_Ax (snd r) = 1 /\ n_Atb (snd r) = 0.
Proof.
  apply (cgls_consistent_start_raises Runs.Ax (Runs.Atb 1) Runs.timer
           1 (Fin 1) 0 false false Runs.dict_init); reflexivity.
Defined.

(** The same start for LSQR, for X14. *)
Lemma lsqr_consistent_start_witness :
  let b := {| init_proj := Fin 1; init_res := Fin 1; init_niter := 1;
              init_verbose := false; init_Quameasopts := false;
              init_lmbda := Fin 0; init_dict := [] |} in
  let s0 := LSQR.__init__ Runs.Ax (Runs.Atb 1) b in
  let r := LSQR.run_main_iter Runs.Ax (Runs.Atb 1) Runs.timer (boot s0) in
  LSQR.__u__ s0 = NaN
  /\ fst r = Val None
  /\ LSQR.res (self (snd r)) = NaN
  /\ n_Ax (snd r) = 1.
Proof.
  apply (lsqr_consistent_start_gives_nan XQRoot.xq_Sqrt Runs.Ax (Runs.Atb 1)
           Runs.timer 1 (Fin 1) 0 false false); reflexivity.
Defined.

(** The same start for LSMR, for X15. *)
Lemma lsmr_consistent_start_witness :
  let b := {| init_proj := Fin 1; init_res := Fin 1; init_niter := 1;
              init_verbose := false; init_Quameasopts := false;
              init_lmbda := Fin 0; init_dict := [] |} in
  let s0 := LSMR.__init__ Runs.Ax (Runs.Atb 1) b in
  let r := LSMR.run_main_iter Runs.Ax (Runs.Atb 1) Runs.timer (boot s0) in
  LSMR.__u__ s0 = NaN
  /\ fst r = Val None
  /\ LSMR.res (self (snd r)) = NaN
  /\ n_Ax (snd r) = 1.
Proof.
  apply (lsmr_consistent_start_gives_nan XQRoot.xq_Sqrt Runs.Ax (Runs.Atb 1)
           Runs.timer 1 (Fin 1) (Fin 0) 0 false false); reflexivity.
Defined.
End FurtherRuns.

Section FurtherExactRuns.
Import Exact.

(** The event logs of LSQR and LSMR on the bidiagonal system, for X10. *)
Lemma lsqr_lsmr_event_log_witness :
  let q := boot (LSQR.__init__ Bidiagonal.Ax Bidiagonal.Atb (Bidiagonal.setup 2)) in
  let l := boot (LSMR.__init__ Bidiagonal.Ax Bidiagonal.Atb (Bidiagonal.setup 2)) in
  stdout (snd (LSQR.run_main_iter Bidiagonal.Ax Bidiagonal.Atb Bidiagonal.timer q))
  = stdout q ++ (if LSQR.verbose (self q)
                 then map EstimateTime (seq 0 (LSQR.niter (self q))) else [])
  /\ stdout (snd (LSMR.run_main_iter Bidiagonal.Ax Bidiagonal.Atb Bidiagonal.timer l))
     = stdout l ++ (if LSMR.verbose (self l)
                    then map EstimateTime (seq 0 (LSMR.niter (self l))) else []).
Proof.
  cbv zeta. split.
  - apply (proj1 (lsqr_lsmr_event_log Bidiagonal.Ax Bidiagonal.Atb Bidiagonal.timer)).
    reflexivity.
  - apply (proj2 (lsqr_lsmr_event_log Bidiagonal.Ax Bidiagonal.Atb Bidiagonal.timer)).
    reflexivity.
Defined.
End FurtherExactRuns.

(** ** LSQR and LSMR on a one-cell system *)

Section RationalRoots.
Import XQ XQRoot.
Local Open Scope Q_scope.

(** [Qred] leaves a fraction in lowest terms alone. *)
Lemma Qred_lowest (q : Q) : Z.gcd (Qnum q) (QDen q) = 1%Z -> Qred q = q.
Proof.
  destruct q as [n d]. cbn [Qnum Qden]. intros Hg. unfold Qred.
  pose proof (Z.ggcd_gcd n (Z.pos d)) as Hgg.
  pose proof (Z.ggcd_correct_divisors n (Z.pos d)) as Hdiv.
  destruct (Z.ggcd n (Z.pos d)) as [g [aa bb]]. cbn [fst snd] in *.
  rewrite Hg in Hgg. subst g. destruct Hdiv as [Hn Hd].
  rewrite Z.mul_1_l in Hn, Hd. subst aa bb. reflexivity.
Qed.

(** A reduced fraction times itself is reduced. *)
Lemma Qred_square (x : Q) : Qred (Qred x * Qred x) = Qred x * Qred x.
Proof.
  apply Qred_lowest.
  pose proof (gcd_Qred x) as Hg.
  destruct (Qred x) as [n d]. cbn [Qnum Qden Qmult] in *.
  rewrite Pos2Z.inj_mul. change (Z.coprime n (Z.pos d)) in Hg.
  change (Z.coprime (n * n) (Z.pos d * Z.pos d)).
  repeat (apply Z.coprime_mul_l || apply Z.coprime_mul_r); exact Hg.
Qed.

(** The root of a rational square is found, and is the absolute value. *)
Lemma root_square (q x : Q) :
  q == x * x -> Exact.root q = Exact.Rat (Qabs (Qred x)).
Proof.
  intros Hq. unfold Exact.root.
  assert (Hred : Qred q = Qred x * Qred x).
  { rewrite <- Qred_square. apply Qred_complete.
    rewrite Hq, !Qred_correct. reflexivity. }
  rewrite Hred. destruct (Qred x) as [n d]. cbn [Qnum Qden Qmult Qabs].
  assert (Hn : (n * n = Z.abs n * Z.abs n)%Z) by (symmetry; apply Z.abs_square).
  assert (Hsn : Z.sqrt (n * n) = Z.abs n).
  { rewrite Hn. apply Z.sqrt_square. apply Z.abs_nonneg. }
  assert (Hsd : Z.sqrt (Z.pos (d * d)) = Z.pos d).
  { rewrite Pos2Z.inj_mul. apply Z.sqrt_square. lia. }
  assert (Hsq : Exact.is_square (n * n) && Exact.is_square (Z.pos (d * d)) = true).
  { unfold Exact.is_square. rewrite Hsn, Hsd, Pos2Z.inj_mul.
    apply andb_true_iff. split; apply Z.eqb_eq; lia. }
  destruct (n * n)%Z eqn:En; try (rewrite Hsq, Hsn, Hsd; reflexivity).
  lia.
Qed.

Lemma xsqrt_square (q x : Q) :
  q == x * x -> xsqrt (Fin q) = Fin (Qabs (Qred x)).
Proof. intros Hq. unfold xsqrt. by rewrite (root_square q x Hq). Qed.
End RationalRoots.

Section OneCellBidiagonalization.
Import XQ XQRoot.
Local Open Scope Q_scope.
Variables a b c : Q.
Hypothesis Ha : ~ a == 0.
Hypothesis Hrho : ~ b - a * c == 0.
Variable timer : nat -> xq.
Local Abbreviation Ax := (Scaled.Ax a).
Local Abbreviation Atb := (Scaled.Atb a).
Local Abbreviation rho := (b - a * c).

(** The start of the bidiagonalization on the one-cell system: the norm
    of the residual, the unit residual [u], and the unit [v] with its
    norm [alpha]. *)
Local Abbreviation NR := (Fin (Qred (Qabs rho))).
Local Abbreviation U := (Fin (Qred (rho / Qabs rho))).
Local Abbreviation AL := (Fin (Qred (Qabs a))).
Local Abbreviation V := (Fin (Qred ((a * rho) / (Qabs a * Qabs rho)))).

Lemma Qabs_nonzero (x : Q) : ~ x == 0 -> ~ Qabs x == 0.
Proof.
  intros Hx. apply (Qabs_case x (fun y => ~ y == 0)); intros _; [exact Hx|].
  intros H. apply Hx. rewrite <- (Qopp_involutive x), H. reflexivity.
Qed.

Lemma Qabs_unit (x : Q) : ~ x == 0 -> Qabs (x / Qabs x) == 1.
Proof.
  intros Hx. unfold Qdiv.
  rewrite Qabs_Qmult, Qabs_Qinv, (Qabs_pos (Qabs x)) by apply Qabs_nonneg.
  field. by apply Qabs_nonzero.
Qed.

Lemma scaled_start :
  let u := vsub (Fin b) (Ax (Fin c)) in
  let normr := norm u in
  let u1 := vdiv u normr in
  let v := Atb u1 in
  let alpha := norm v in
  normr = NR /\ u1 = U /\ alpha = AL /\ vdiv v alpha = V.
Proof using Ha Hrho.
  cbv zeta. unfold Scaled.Ax, Scaled.Atb. cbn [vsub vdiv norm xq_cell].
  assert (Hr : xsub (Fin b) (xmul (Fin a) (Fin c)) = Fin (Qred rho)).
  { unfold xsub, xneg, xmul, xadd. apply fin_red. rewrite !Qred_correct. ring. }
  rewrite !Hr.
  assert (Hn : xabs (Fin (Qred rho)) = NR).
  { unfold xabs. apply fin_red. by rewrite Qred_correct. }
  rewrite !Hn.
  assert (Hu : xdiv (Fin (Qred rho)) NR = U).
  { rewrite xdiv_fin by (by apply Qred_nonzero, Qabs_nonzero).
    apply fin_red. by rewrite !Qred_correct. }
  rewrite !Hu.
  assert (Hv : xmul (Fin a) U = Fin (Qred (a * (rho / Qabs rho)))).
  { unfold xmul. apply fin_red. by rewrite Qred_correct. }
  rewrite !Hv.
  assert (Hal : xabs (Fin (Qred (a * (rho / Qabs rho)))) = AL).
  { unfold xabs. apply fin_red.
    rewrite Qred_correct, Qabs_Qmult, Qabs_unit by assumption. ring. }
  rewrite !Hal.
  repeat split; try reflexivity.
  rewrite xdiv_fin by (by apply Qred_nonzero, Qabs_nonzero).
  apply fin_red. rewrite !Qred_correct. field.
  split; by apply Qabs_nonzero.
Qed.

(** The first step of the bidiagonalization breaks down: in one cell the
    new [u] is [a v - alpha u = 0], its norm [beta] is 0, and the
    normalisation [u / beta] is [0/0].  The NaN spreads to [v] and
    [alpha]. *)
Lemma scaled_bidiag_breakdown :
  bidiag_step Ax Atb U AL V = (NaN, Fin 0, NaN, NaN).
Proof using Ha Hrho.
  unfold bidiag_step, Scaled.Ax, Scaled.Atb.
  cbn [vsub vscale vdiv norm xq_cell].
  assert (Hu : xsub (xmul (Fin a) V) (xmul AL U) = Fin 0).
  { unfold xsub, xneg, xmul, xadd. apply fin_red0. rewrite !Qred_correct.
    transitivity ((a * a - Qabs a * Qabs a) * rho / (Qabs a * Qabs rho)).
    - field. split; by apply Qabs_nonzero.
    - rewrite Qabs_sq. field. split; by apply Qabs_nonzero. }
  rewrite !Hu. reflexivity.
Qed.

Lemma lsqr_scaled_init (N : nat) (v : bool) :
  LSQR.__init__ Ax Atb (Scaled.setup b c N v)
  = LSQR.State (Fin b) (Fin c) N v false 0%nat U NR NR V AL AL V [].
Proof using Ha Hrho.
  destruct scaled_start as (Hn & Hu & Hal & Hv). cbv zeta in *.
  unfold LSQR.__init__, Scaled.setup.
  cbn [init_proj init_res init_niter init_verbose init_Quameasopts].
  rewrite Hv, Hal, Hu, Hn. reflexivity.
Qed.

(** The plane rotation of LSQR after the breakdown: [rho] is [|a|], the
    rotation is the identity, and the update of the solution lands on
    [b/a]; [w], [theta] and [rhobar] are NaN. *)
Lemma lsqr_scaled_rotation (N : nat) (v : bool) (l : list xq) :
  LSQR.rotation
    (LSQR.State (Fin b) (Fin c) N v false 0%nat U NR NR V AL AL V l)
    NaN (Fin 0) NaN NaN
  = LSQR.State (Fin b) (Fin (Qred (b / a))) N v false 0%nat
      NaN (Fin 0) (Fin 0) NaN NaN NaN NaN l.
Proof using Ha Hrho.
  unfold LSQR.rotation, sq.
  cbn [LSQR.proj LSQR.res LSQR.niter LSQR.verbose LSQR.Quameasopts
       LSQR.re_init_at_iteration LSQR.__rhobar__ LSQR.__phibar__ LSQR.__w__
       LSQR.l2l vadd vsub vscale xq_cell fadd fmul fdiv fneg xq_Float
       fsqrt xq_Sqrt].
  assert (Hnz : ~ Qabs (Qred a) == 0).
  { apply Qabs_nonzero. by apply Qred_nonzero. }
  assert (Hrh : xsqrt (xadd (xmul AL AL) (xmul (Fin 0) (Fin 0)))
                = Fin (Qabs (Qred a))).
  { unfold xadd, xmul. apply xsqrt_square.
    rewrite !Qred_correct, Qabs_sq. ring. }
  unfold fsqrt, xq_Sqrt. rewrite !Hrh.
  assert (Hc : xdiv AL (Fin (Qabs (Qred a))) = Fin 1).
  { rewrite xdiv_fin by exact Hnz. change (Fin 1) with (Fin (Qred 1)).
    apply fin_red. rewrite !Qred_correct. field. by apply Qabs_nonzero. }
  rewrite !Hc.
  assert (Hs : xdiv (Fin 0) (Fin (Qabs (Qred a))) = Fin 0).
  { rewrite xdiv_fin by exact Hnz. apply fin_red0. field. exact Hnz. }
  rewrite !Hs.
  assert (Hphibar : xmul (Fin 0) NR = Fin 0).
  { unfold xmul. apply fin_red0. ring. }
  rewrite !Hphibar.
  assert (Hres : xadd (Fin c)
                   (xmul (xdiv (xmul (Fin 1) NR) (Fin (Qabs (Qred a)))) V)
                 = Fin (Qred (b / a))).
  { unfold xmul at 2. rewrite xdiv_fin by exact Hnz.
    unfold xmul, xadd. apply fin_red. rewrite !Qred_correct.
    transitivity (c + a * rho / (Qabs a * Qabs a)).
    - field. split; by apply Qabs_nonzero.
    - rewrite Qabs_sq. field. exact Ha. }
  rewrite !Hres. reflexivity.
Qed.

(** Once [w] is NaN every LSQR iteration keeps it so and makes the
    solution NaN; none raises. *)
Lemma lsqr_nan_from (a0 n : nat) (m0 : machine xq xq (@LSQR.state xq xq xq)) :
  LSQR.__w__ (self m0) = NaN ->
  let r := for_range (LSQR.iteration Ax Atb timer) (seq a0 n) m0 in
  fst r = Val None /\ ((0 < n)%nat -> LSQR.res (self (snd r)) = NaN).
Proof.
  intros Hw. cbv zeta.
  pose proof (for_range_seq_inv (LSQR.iteration Ax Atb timer)
    (fun i m1 => LSQR.__w__ (self m1) = NaN
                 /\ ((a0 < i)%nat -> LSQR.res (self m1) = NaN))
    (fun _ _ => False) n a0) as Hinv.
  cbv beta in Hinv. lapply Hinv; clear Hinv.
  - intros Hinv. lapply (Hinv m0); clear Hinv.
    + destruct (for_range _ _ m0) as [[[x|]|e] m1]; cbn [fst snd]; try tauto.
      intros [_ Hres]. split; [reflexivity|]. intros Hn. apply Hres. lia.
    + split; [exact Hw|lia].
  - intros i m1 _ [Hw1 _].
    rewrite lsqr_iteration_eq. cbv zeta.
    destruct (bidiag_step _ _ _ _ _) as [[[u beta] v] alpha].
    cbn [fst snd self]. unfold LSQR.rotation.
    cbn [LSQR.__w__ LSQR.res vadd vsub vscale xq_cell].
    rewrite Hw1, !xmul_nan_r, xadd_nan_r, xsub_nan_r. tauto.
Qed.

(** X17.  LSQR on a one-cell system with the exact adjoint, started off
    the solution.  One iteration gives the solution [b/a] exactly, and
    the bidiagonalization breaks down in it: the new [u] is zero, [beta]
    is 0 and [u / beta] is NaN.  Nothing tests [beta]: with two or more
    iterations the run raises nothing and leaves a NaN solution. *)
Theorem lsqr_one_cell_solves_then_nan (n : nat) (v : bool) :
  let one := LSQR.run_main_iter Ax Atb timer
               (boot (LSQR.__init__ Ax Atb (Scaled.setup b c 1 v))) in
  let more := LSQR.run_main_iter Ax Atb timer
                (boot (LSQR.__init__ Ax Atb (Scaled.setup b c (S (S n)) v))) in
  fst one = Val None
  /\ LSQR.res (self (snd one)) = Fin (Qred (b / a))
  /\ LSQR.__beta__ (self (snd one)) = Fin 0
  /\ LSQR.__u__ (self (snd one)) = NaN
  /\ fst more = Val None
  /\ LSQR.res (self (snd more)) = NaN.
Proof using Ha Hrho.
  cbv zeta. rewrite !lsqr_scaled_init, !lsqr_run_main_iter_eq.
  cbn [boot self LSQR.niter n_Ax n_Atb n_timer stdout LSQR.set_l2l
       LSQR.proj LSQR.res LSQR.verbose LSQR.Quameasopts
       LSQR.re_init_at_iteration LSQR.__u__ LSQR.__beta__ LSQR.__phibar__
       LSQR.__v__ LSQR.__alpha__ LSQR.__rhobar__ LSQR.__w__ LSQR.l2l].
  assert (Hit : forall N l (m0 : machine xq xq (@LSQR.state xq xq xq)),
    self m0 = LSQR.State (Fin b) (Fin c) N v false 0%nat U NR NR V AL AL V l ->
    exists m1,
      LSQR.iteration Ax Atb timer 0 m0 = (Val None, m1)
      /\ self m1 = LSQR.State (Fin b) (Fin (Qred (b / a))) N v false 0%nat
                     NaN (Fin 0) (Fin 0) NaN NaN NaN NaN l).
  { intros N l m0 Hs0. rewrite lsqr_iteration_eq. cbv zeta. rewrite Hs0.
    cbn [LSQR.__u__ LSQR.__alpha__ LSQR.__v__].
    rewrite scaled_bidiag_breakdown, lsqr_scaled_rotation.
    eexists. split; reflexivity. }
  split; [|split; [|split; [|split]]].
  1-4: cbn [seq for_range]; unfold bind;
       match goal with |- context [LSQR.iteration _ _ _ 0%nat ?m0] =>
         destruct (Hit _ _ m0 eq_refl) as (m1 & -> & Hs)
       end; cbn [fst snd ret]; rewrite ?Hs; reflexivity.
  cbn [seq for_range]. unfold bind.
  match goal with |- context [LSQR.iteration _ _ _ 0%nat ?m0] =>
    destruct (Hit _ _ m0 eq_refl) as (m1 & -> & Hs)
  end.
  assert (Hw : LSQR.__w__ (self m1) = NaN) by (by rewrite Hs).
  pose proof (lsqr_nan_from 1 (S n) m1 Hw) as [Hval Hres].
  split; [exact Hval|apply Hres; lia].
Qed.

Lemma xmul_nan_l (x : xq) : xmul NaN x = NaN.
Proof. reflexivity. Qed.

Lemma xdiv_nan_l (x : xq) : xdiv NaN x = NaN.
Proof. reflexivity. Qed.

Lemma xdiv_nan_r (x : xq) : xdiv x NaN = NaN.
Proof. by destruct x. Qed.

Lemma xsub_nan_l (x : xq) : xsub NaN x = NaN.
Proof. reflexivity. Qed.

Ltac nan_spreads :=
  repeat (progress rewrite ?xmul_nan_r, ?xmul_nan_l, ?xadd_nan_r, ?xdiv_nan_r,
            ?xdiv_nan_l, ?xsub_nan_r, ?xsub_nan_l;
          change (xsqrt NaN) with NaN).

(** The rotations of LSMR when the bidiagonalization has handed over a
    NaN [alpha] and [v]: [theta = s * alpha] is NaN and so are [rhobar],
    [cbar], [zeta] and the solution. *)
Lemma lsmr_rotations_nan (s : @LSMR.state xq xq xq) (u beta : xq) :
  let s' := fst (LSMR.rotations s u beta NaN NaN) in
  LSMR.res s' = NaN /\ LSMR.__h__ s' = NaN.
Proof.
  cbv zeta. unfold LSMR.rotations, sq.
  cbn [fst LSMR.res LSMR.__h__ vadd vsub vscale xq_cell fadd fmul fdiv fneg
       xq_Float].
  unfold fsqrt, xq_Sqrt. nan_spreads. split; reflexivity.
Qed.

(** Once [h] is NaN the rotations keep it so and make the solution
    NaN. *)
Lemma lsmr_rotations_h_nan (s : @LSMR.state xq xq xq) (u beta v alpha : xq) :
  LSMR.__h__ s = NaN ->
  let s' := fst (LSMR.rotations s u beta v alpha) in
  LSMR.res s' = NaN /\ LSMR.__h__ s' = NaN.
Proof.
  intros Hh. cbv zeta. unfold LSMR.rotations.
  cbn [fst LSMR.res LSMR.__h__ vadd vsub vscale xq_cell].
  rewrite Hh.
  destruct (LSMR.__hbar__ s) as [z|hb];
    cbn [LSMR.hbar_update vsubs vsub vscale xq_cell];
    nan_spreads; split; reflexivity.
Qed.

Local Abbreviation damped lam N v :=
  {| init_proj := Fin b; init_res := Fin c; init_niter := N;
     init_verbose := v; init_Quameasopts := false; init_lmbda := lam;
     init_dict := [] |}.

Lemma lsmr_scaled_init (lam : xq) (N : nat) (v : bool) :
  let s := LSMR.__init__ Ax Atb (damped lam N v) in
  LSMR.__u__ s = U /\ LSMR.__alpha__ s = AL /\ LSMR.__v__ s = V
  /\ LSMR.niter s = N.
Proof using Ha Hrho.
  destruct scaled_start as (Hn & Hu & Hal & Hv). cbv zeta in *.
  unfold LSMR.__init__.
  cbn [init_proj init_res init_niter init_verbose init_Quameasopts init_lmbda
       LSMR.__u__ LSMR.__alpha__ LSMR.__v__ LSMR.niter].
  rewrite Hv, Hal, Hu. repeat split.
Qed.

(** X18.  LSMR on a one-cell system with the exact adjoint, started off
    the solution, for any damping.  The constructor leaves finite
    values, but the first step of the bidiagonalization breaks down as
    in LSQR, and here the NaN [alpha] enters [theta = s * alpha] and
    through it [rhobar], [cbar] and [zeta]: the first iteration already
    makes the solution NaN.  The run raises nothing. *)
Theorem lsmr_one_cell_gives_nan (lam : xq) (n : nat) (v : bool) :
  let s0 := LSMR.__init__ Ax Atb (damped lam (S n) v) in
  let r := LSMR.run_main_iter Ax Atb timer (boot s0) in
  LSMR.__u__ s0 = Fin (Qred (rho / Qabs rho))
  /\ LSMR.__alpha__ s0 = Fin (Qred (Qabs a))
  /\ fst r = Val None
  /\ LSMR.res (self (snd r)) = NaN.
Proof using Ha Hrho.
  cbv zeta.
  destruct (lsmr_scaled_init lam (S n) v) as (Hu & Hal & Hv & HN).
  cbv zeta in *. split; [exact Hu|]. split; [exact Hal|].
  rewrite lsmr_run_main_iter_eq. cbn [boot self n_Ax n_Atb n_timer stdout].
  rewrite HN. set (m0 := Machine _ [] _ _ _ _).
  pose proof (for_range_seq_inv (LSMR.iteration Ax Atb timer)
    (fun i m1 =>
       length (LSMR.l2l (self m1)) = S n
       /\ ((i = 0%nat /\ LSMR.__u__ (self m1) = U
            /\ LSMR.__alpha__ (self m1) = AL /\ LSMR.__v__ (self m1) = V)
           \/ ((0 < i)%nat /\ LSMR.__h__ (self m1) = NaN
               /\ LSMR.res (self m1) = NaN)))
    (fun _ _ => False) (S n) 0) as Hinv.
  cbv beta in Hinv. lapply Hinv; clear Hinv.
  - intros Hinv. lapply (Hinv m0); clear Hinv.
    + destruct (for_range _ _ m0) as [[[x|]|e] m1]; cbn [fst snd]; try tauto.
      intros [_ [[H0 _]|(_ & _ & Hres)]]; [discriminate H0|].
      split; [reflexivity|exact Hres].
    + split; [cbn; by rewrite length_replicate|].
      left. repeat split; assumption.
  - intros i m1 [_ Hi] [Hlen Hcase].
    rewrite lsmr_iteration_eq. cbv zeta.
    destruct Hcase as [(-> & Hu1 & Hal1 & Hv1)|(Hpos & Hh & Hres)].
    + rewrite Hu1, Hal1, Hv1, scaled_bidiag_breakdown.
      destruct (decide (0 < length (LSMR.l2l (self m1)))%nat) as [Hlt|Hge]; [|lia].
      cbn [fst snd self].
      destruct (lsmr_rotations_nan (self m1) NaN (Fin 0)) as [Hr Hh].
      cbv zeta in Hr, Hh.
      split; [cbn [LSMR.set_l2l LSMR.l2l]; rewrite length_insert; exact Hlen|].
      right. split; [lia|]. split; [exact Hh|exact Hr].
    + destruct (bidiag_step _ _ _ _ _) as [[[u beta] v'] alpha].
      destruct (decide (i < length (LSMR.l2l (self m1)))%nat) as [Hlt|Hge]; [|lia].
      cbn [fst snd self].
      destruct (lsmr_rotations_h_nan (self m1) u beta v' alpha Hh) as [Hr Hh'].
      cbv zeta in Hr, Hh'.
      split; [cbn [LSMR.set_l2l LSMR.l2l]; rewrite length_insert; exact Hlen|].
      right. split; [lia|]. split; [exact Hh'|exact Hr].
Qed.
End OneCellBidiagonalization.

Section OneCellRuns.
Import XQ XQRoot.

(** LSQR on the system [2 x = 1] started at 0, for X17. *)
Lemma lsqr_one_cell_witness :
  let one := LSQR.run_main_iter (Scaled.Ax 2) (Scaled.Atb 2) Runs.timer
               (boot (LSQR.__init__ (Scaled.Ax 2) (Scaled.Atb 2)
                        (Scaled.setup 1 0 1 false))) in
  let more := LSQR.run_main_iter (Scaled.Ax 2) (Scaled.Atb 2) Runs.timer
                (boot (LSQR.__init__ (Scaled.Ax 2) (Scaled.Atb 2)
                         (Scaled.setup 1 0 3 false))) in
  fst one = Val None
  /\ LSQR.res (self (snd one)) = Fin (1 # 2)
  /\ LSQR.__beta__ (self (snd one)) = Fin 0
  /\ LSQR.__u__ (self (snd one)) = NaN
  /\ fst more = Val None
  /\ LSQR.res (self (snd more)) = NaN.
Proof.
  apply (lsqr_one_cell_solves_then_nan 2 1 0);
    intros H; vm_compute in H; discriminate H.
Defined.

(** LSMR on the same system, without damping, for X18. *)
Lemma lsmr_one_cell_witness :
  let s0 := LSMR.__init__ (Scaled.Ax 2) (Scaled.Atb 2) (Scaled.setup 1 0 2 false) in
  let r := LSMR.run_main_iter (Scaled.Ax 2) (Scaled.Atb 2) Runs.timer (boot s0) in
  LSMR.__u__ s0 = Fin 1
  /\ LSMR.__alpha__ s0 = Fin 2
  /\ fst r = Val None
  /\ LSMR.res (self (snd r)) = NaN.
Proof.
  apply (lsmr_one_cell_gives_nan 2 1 0);
    intros H; vm_compute in H; discriminate H.
Defined.
End OneCellRuns.
